(** * PairLJETEN: the 12-10-6 pair style of pair_lj_eten.cpp

    A shallow embedding of [src/Software/LAMMPS/pair_lj_eten.cpp].

    Numbers.  A C++ [double] is read as a real number ([R]): the formulas
    are the ones of the source, in the order the source writes them, with
    exact arithmetic (round-off, overflow and NaN are outside this model).
    A C++ [int] is a [Z]; the type counts of a simulation are far from the
    32-bit limits, so no wrap-around is written out.

    Memory.  The per-type-pair arrays ([double **], sized (ntypes+1)^2 by
    [allocate]) are total functions of two indices; [memory->create] hands
    out uninitialised storage, which is an explicit argument ([fresh]) of
    [allocate].

    Engine.  What the file reads through [atom->], [force->], [comm->],
    [list->] and the [Pair] base class is gathered in the record [LAMMPS];
    [ev_tally] and [virial_fdotr_compute] are recorded as events.
    [error->all] ends the run: it is the [Abort] outcome, which carries the
    object as it was at that point. *)

From Stdlib Require Import String Bool ZArith Reals Lra Lia List.
Import ListNotations.

Open Scope Z_scope.
Open Scope R_scope.

(** ** Outcomes *)

Module Outcome.

Inductive outcome (S A : Type) : Type :=
| Done (a : A)
| Abort (msg : string) (at_abort : S).

Arguments Done {S A} a.
Arguments Abort {S A} msg at_abort.

Definition bind {S A B} (m : outcome S A) (k : A -> outcome S B) : outcome S B :=
  match m with
  | Done a => k a
  | Abort msg s => Abort msg s
  end.

End Outcome.
Import Outcome.

Notation "x <- m ;; k" := (bind m (fun x => k))
  (at level 61, m at next level, right associativity).
Notation "' pat <- m ;; k" := (bind m (fun x => match x with pat => k end))
  (at level 61, pat pattern, m at next level, right associativity).

(** ** C conventions *)

(** [if (n)] on an int. *)
Definition truthy (n : Z) : bool := negb (n =? 0)%Z.

(** [a < b], [a > b], [a <= b] on doubles. *)
Definition Rltb (a b : R) : bool := if Rlt_dec a b then true else false.
Definition Rgtb (a b : R) : bool := if Rgt_dec a b then true else false.
Definition Rleb (a b : R) : bool := if Rle_dec a b then true else false.

Notation "a <? b" := (Rltb a b) : R_scope.
Notation "a >? b" := (Rgtb a b) : R_scope.
Notation "a <=? b" := (Rleb a b) : R_scope.

(** [for (i = lo; i <= hi; i++)]: the values [i] takes, in order. *)
Definition zrange (lo hi : Z) : list Z :=
  map (fun k => (lo + Z.of_nat k)%Z) (seq 0 (Z.to_nat (hi - lo + 1))).

Definition for_ {S : Type} (lo hi : Z) (body : Z -> S -> S) (s : S) : S :=
  fold_left (fun s i => body i s) (zrange lo hi) s.

(** The same loop when the body may end the run. *)
Fixpoint fold_o {E S A : Type} (body : A -> S -> outcome E S) (l : list A) (s : S)
  : outcome E S :=
  match l with
  | [] => Done s
  | i :: l' => s' <- body i s ;; fold_o body l' s'
  end.

Definition for_o {E S : Type} (lo hi : Z) (body : Z -> S -> outcome E S) (s : S)
  : outcome E S :=
  fold_o body (zrange lo hi) s.

(** ** The object *)

(** The [double **] members: [cutsq] comes from [Pair], the others from the
    class. *)
Inductive array2 : Set :=
| cutsq | cut | aterm | bterm | cterm
| lj1 | lj2 | lj3 | lj4 | lj5 | lj6 | offset.

Scheme Equality for array2.

Record PairLJETEN : Type := mkPair {
  allocated : bool;
  setflag : Z -> Z -> Z;
  tab : array2 -> Z -> Z -> R;
  cut_global : R;
  offset_flag : Z;
  mix_flag : Z;
  tail_flag : Z;
  cut_respa : option (Z -> R);      (* [double *], [nullptr] is [None] *)
  etail_ij : R;
  ptail_ij : R
}.

(** [a[i][j]] *)
Definition rd (p : PairLJETEN) (a : array2) (i j : Z) : R := tab p a i j.

(** [a[i][j] = v] *)
Definition wr (a : array2) (i j : Z) (v : R) (p : PairLJETEN) : PairLJETEN :=
  mkPair (allocated p) (setflag p)
    (fun a' i' j' =>
       if array2_beq a' a && (i' =? i)%Z && (j' =? j)%Z then v else tab p a' i' j')
    (cut_global p) (offset_flag p) (mix_flag p) (tail_flag p)
    (cut_respa p) (etail_ij p) (ptail_ij p).

(** [setflag[i][j] = v] *)
Definition wr_setflag (i j : Z) (v : Z) (p : PairLJETEN) : PairLJETEN :=
  mkPair (allocated p)
    (fun i' j' => if (i' =? i)%Z && (j' =? j)%Z then v else setflag p i' j')
    (tab p) (cut_global p) (offset_flag p) (mix_flag p) (tail_flag p)
    (cut_respa p) (etail_ij p) (ptail_ij p).

Definition set_cut_global (v : R) (p : PairLJETEN) : PairLJETEN :=
  mkPair (allocated p) (setflag p) (tab p) v (offset_flag p) (mix_flag p)
    (tail_flag p) (cut_respa p) (etail_ij p) (ptail_ij p).

Definition set_flags (o m t : Z) (p : PairLJETEN) : PairLJETEN :=
  mkPair (allocated p) (setflag p) (tab p) (cut_global p) o m t
    (cut_respa p) (etail_ij p) (ptail_ij p).

Definition set_tail (e pt : R) (p : PairLJETEN) : PairLJETEN :=
  mkPair (allocated p) (setflag p) (tab p) (cut_global p) (offset_flag p)
    (mix_flag p) (tail_flag p) (cut_respa p) e pt.

Definition set_cut_respa (c : option (Z -> R)) (p : PairLJETEN) : PairLJETEN :=
  mkPair (allocated p) (setflag p) (tab p) (cut_global p) (offset_flag p)
    (mix_flag p) (tail_flag p) c (etail_ij p) (ptail_ij p).

(** Storage as [memory->create] returns it: contents not initialised. *)
Record Fresh : Type := mkFresh {
  fresh_setflag : Z -> Z -> Z;
  fresh_tab : array2 -> Z -> Z -> R
}.

(** ** The engine *)

Record NeighList : Type := mkNeighList {
  ilist : list Z;
  firstneigh : Z -> list Z;
  ilist_inner : list Z;
  firstneigh_inner : Z -> list Z;
  ilist_middle : list Z;
  firstneigh_middle : Z -> list Z
}.

(** The members of the rRESPA integrator that [init_style] reads. *)
Record Respa : Type := mkRespa {
  level_inner : Z;
  level_middle : Z;
  cutoff : Z -> R                    (* [double cutoff[4]] *)
}.

Record LAMMPS : Type := mkLAMMPS {
  ntypes : Z;                        (* atom->ntypes *)
  nlocal : Z;                        (* atom->nlocal *)
  atom_type : Z -> Z;                (* atom->type *)
  x : Z -> Z -> R;                   (* atom->x *)
  special_lj : Z -> R;               (* force->special_lj *)
  newton_pair : Z;                   (* force->newton_pair *)
  sbmask : Z -> Z;                   (* Pair::sbmask *)
  NEIGHMASK : Z;
  neighlist : NeighList;             (* the member [list] *)
  respa : option Respa;              (* update->integrate, when its style is respa *)
  whichflag : Z;                     (* update->whichflag *)
  ev_init : Z -> Z -> Z * Z;         (* sets (evflag, vflag_fdotr) *)
  mix_distance : Z -> R -> R -> R;   (* Pair::mix_distance, reads mix_flag *)
  MPI_Allreduce_sum : R -> R
}.

(** ** Allocation, settings, coefficients *)

Section Lifecycle.

Variable lmp : LAMMPS.

Definition allocate (fresh : Fresh) (p : PairLJETEN) : PairLJETEN :=
  let n := (ntypes lmp + 1)%Z in
  let p := mkPair true (fresh_setflag fresh) (fresh_tab fresh)
             (cut_global p) (offset_flag p) (mix_flag p) (tail_flag p)
             (cut_respa p) (etail_ij p) (ptail_ij p) in
  for_ 1 (n - 1) (fun i p =>
    for_ i (n - 1) (fun j p => wr_setflag i j 0%Z p) p) p.

(** [arg] holds the numbers the arguments parse to. *)
Definition settings (arg : list R) (p : PairLJETEN)
  : outcome PairLJETEN PairLJETEN :=
  let narg := Z.of_nat (length arg) in
  if negb (narg =? 1)%Z then Abort "Illegal pair_style command" p else
  let p := set_cut_global (nth 0 arg 0) p in
  (* reset cutoffs that have been explicitly set *)
  Done
    (if allocated p then
       for_ 1 (ntypes lmp) (fun i p =>
         for_ i (ntypes lmp) (fun j p =>
           if truthy (setflag p i j) then wr cut i j (cut_global p) p else p) p) p
     else p).

(** [arg[0]] and [arg[1]] are given by the bounds [utils::bounds] returns
    for them, [arg[2..]] by the numbers they parse to, so that
    [narg = 2 + length vals]. *)
Definition coeff (fresh : Fresh) (ilo ihi jlo jhi : Z) (vals : list R)
    (p : PairLJETEN) : outcome PairLJETEN PairLJETEN :=
  let narg := (2 + Z.of_nat (length vals))%Z in
  if (narg <? 5)%Z || (narg >? 6)%Z
  then Abort "Incorrect args for pair coefficients" p else
  let p := if allocated p then p else allocate fresh p in
  let aterm_one := nth 0 vals 0 in
  let bterm_one := nth 1 vals 0 in
  let cterm_one := nth 2 vals 0 in
  let cut_one := if (narg =? 6)%Z then nth 3 vals 0 else cut_global p in
  let '(p, count) :=
    for_ ilo ihi (fun i s =>
      for_ (Z.max jlo i) jhi (fun j '(p, count) =>
        let p := wr aterm i j aterm_one p in
        let p := wr bterm i j bterm_one p in
        let p := wr cterm i j cterm_one p in
        let p := wr cut i j cut_one p in
        let p := wr_setflag i j 1%Z p in
        (p, (count + 1)%Z)) s) (p, 0%Z) in
  if (count =? 0)%Z
  then Abort "Incorrect args for pair coefficients" p
  else Done p.

(** ** init_style, init_one *)

Inductive list_style : Set := REQ_DEFAULT | REQ_RESPA_INOUT | REQ_RESPA_ALL.

(** Returns the neighbor-list request together with the object. *)
Definition init_style (p : PairLJETEN) : list_style * PairLJETEN :=
  let ls := REQ_DEFAULT in
  let ls :=
    match respa lmp with
    | Some r =>
        if (whichflag lmp =? 1)%Z then
          let ls := if (level_inner r >=? 0)%Z then REQ_RESPA_INOUT else ls in
          if (level_middle r >=? 0)%Z then REQ_RESPA_ALL else ls
        else ls
    | None => ls
    end in
  (* set rRESPA cutoffs *)
  let p :=
    match respa lmp with
    | Some r =>
        if (level_inner r >=? 0)%Z then set_cut_respa (Some (cutoff r)) p
        else set_cut_respa None p
    | None => set_cut_respa None p
    end in
  (ls, p).

(** The count loop of the tail branch: local atoms of type [t]. *)
Definition count_type (t : Z) : R :=
  for_ 0 (nlocal lmp - 1) (fun k c =>
    if (atom_type lmp k =? t)%Z then c + 1 else c) 0.

(** An unset pair: zero coefficients, mixed cutoff. *)
Definition fill_unset (i j : Z) (p : PairLJETEN) : PairLJETEN :=
  if (setflag p i j =? 0)%Z then
    let p := wr aterm i j 0 p in
    let p := wr bterm i j 0 p in
    let p := wr cterm i j 0 p in
    wr cut i j (mix_distance lmp (mix_flag p) (rd p cut i i) (rd p cut j j)) p
  else p.

(** [aterm[i][j] = aterm[i][j]] and the two lines after it. *)
Definition reassign (i j : Z) (p : PairLJETEN) : PairLJETEN :=
  let p := wr aterm i j (rd p aterm i j) p in
  let p := wr bterm i j (rd p bterm i j) p in
  wr cterm i j (rd p cterm i j) p.

(** [lj1] to [lj6] and [offset]; the offset computation is commented out
    in the source, which leaves the assignment of 0.0. *)
Definition derive (i j : Z) (p : PairLJETEN) : PairLJETEN :=
  let p := wr lj1 i j (12 * rd p aterm i j) p in
  let p := wr lj2 i j (10 * rd p bterm i j) p in
  let p := wr lj3 i j (6 * rd p cterm i j) p in
  let p := wr lj4 i j (rd p aterm i j) p in
  let p := wr lj5 i j (rd p bterm i j) p in
  let p := wr lj6 i j (rd p cterm i j) p in
  wr offset i j 0 p.

(** The assignments to the [j][i] entries. *)
Definition mirror (i j : Z) (p : PairLJETEN) : PairLJETEN :=
  let p := wr lj1 j i (rd p lj1 i j) p in
  let p := wr lj2 j i (rd p lj2 i j) p in
  let p := wr lj3 j i (rd p lj3 i j) p in
  let p := wr lj4 j i (rd p lj4 i j) p in
  let p := wr lj5 j i (rd p lj5 i j) p in
  let p := wr lj6 j i (rd p lj6 i j) p in
  wr offset j i (rd p offset i j) p.

(** The body of [if (tail_flag)]: the I,J contribution to the long-range
    tail correction. *)
Definition tail_correction (i j : Z) (p : PairLJETEN) : PairLJETEN :=
  let all0 := MPI_Allreduce_sum lmp (count_type i) in
  let all1 := MPI_Allreduce_sum lmp (count_type j) in
  let sig2 := rd p aterm i j * rd p aterm i j in
  let sig6 := sig2 * sig2 * sig2 in
  let rc3 := rd p cut i j * rd p cut i j * rd p cut i j in
  let rc6 := rc3 * rc3 in
  let rc9 := rc3 * rc6 in
  let prefactor := 8 * PI * all0 * all1 * rd p bterm i j * sig6 / (9 * rc9) in
  set_tail (prefactor * (sig6 - 3 * rc6)) (2 * prefactor * (2 * sig6 - 3 * rc6)) p.

(** The array assignments of [init_one], in source order. *)
Definition init_arrays (i j : Z) (p : PairLJETEN) : PairLJETEN :=
  let p := fill_unset i j p in
  let p := reassign i j p in
  let p := derive i j p in
  mirror i j p.

Definition init_one (i j : Z) (p : PairLJETEN)
  : outcome PairLJETEN (PairLJETEN * R) :=
  let p := init_arrays i j p in
  (* check interior rRESPA cutoff *)
  let respa_bad :=
    match cut_respa p with
    | Some cr => rd p cut i j <? cr 3%Z
    | None => false
    end in
  if respa_bad then Abort "Pair cutoff < Respa interior cutoff" p else
  let p := if truthy (tail_flag p) then tail_correction i j p else p in
  Done (p, rd p cut i j).

End Lifecycle.

(** ** Restart files *)

(** A restart stream.  [fwrite] and [sfread] move fixed-width fields of
    [sizeof(int)] and [sizeof(double)] bytes; a field is kept here as a
    typed cell, the byte layout itself is not modelled. *)
Inductive cell : Type :=
| IntCell (n : Z)
| DoubleCell (v : R).

Definition FILE : Type := list cell.

Definition fwrite_int (n : Z) (fp : FILE) : FILE := fp ++ [IntCell n].
Definition fwrite_double (v : R) (fp : FILE) : FILE := fp ++ [DoubleCell v].

(** [utils::sfread]: a short read ends the run. *)
Definition sfread_int (p : PairLJETEN) (fp : FILE) : outcome PairLJETEN (Z * FILE) :=
  match fp with
  | IntCell n :: fp' => Done (n, fp')
  | _ => Abort "Unexpected end of file while reading file" p
  end.

Definition sfread_double (p : PairLJETEN) (fp : FILE) : outcome PairLJETEN (R * FILE) :=
  match fp with
  | DoubleCell v :: fp' => Done (v, fp')
  | _ => Abort "Unexpected end of file while reading file" p
  end.

Section Restart.

Variable lmp : LAMMPS.

Definition write_restart_settings (p : PairLJETEN) (fp : FILE) : FILE :=
  let fp := fwrite_double (cut_global p) fp in
  let fp := fwrite_int (offset_flag p) fp in
  let fp := fwrite_int (mix_flag p) fp in
  fwrite_int (tail_flag p) fp.

Definition write_restart (p : PairLJETEN) (fp : FILE) : FILE :=
  let fp := write_restart_settings p fp in
  for_ 1 (ntypes lmp) (fun i fp =>
    for_ i (ntypes lmp) (fun j fp =>
      let fp := fwrite_int (setflag p i j) fp in
      if truthy (setflag p i j) then
        let fp := fwrite_double (rd p aterm i j) fp in
        let fp := fwrite_double (rd p bterm i j) fp in
        let fp := fwrite_double (rd p cterm i j) fp in
        fwrite_double (rd p cut i j) fp
      else fp) fp) fp.

(** Proc 0 reads and broadcasts: every rank ends with the values read
    from the stream, which is what is written here. *)
Definition read_restart_settings (p : PairLJETEN) (fp : FILE)
  : outcome PairLJETEN (PairLJETEN * FILE) :=
  '(v, fp) <- sfread_double p fp ;;
  let p := set_cut_global v p in
  '(o, fp) <- sfread_int p fp ;;
  let p := set_flags o (mix_flag p) (tail_flag p) p in
  '(m, fp) <- sfread_int p fp ;;
  let p := set_flags (offset_flag p) m (tail_flag p) p in
  '(t, fp) <- sfread_int p fp ;;
  let p := set_flags (offset_flag p) (mix_flag p) t p in
  Done (p, fp).

Definition read_restart (fresh : Fresh) (p : PairLJETEN) (fp : FILE)
  : outcome PairLJETEN (PairLJETEN * FILE) :=
  '(p, fp) <- read_restart_settings p fp ;;
  let p := allocate lmp fresh p in
  for_o 1 (ntypes lmp) (fun i s =>
    for_o i (ntypes lmp) (fun j '(p, fp) =>
      '(n, fp) <- sfread_int p fp ;;
      let p := wr_setflag i j n p in
      if truthy (setflag p i j) then
        '(v, fp) <- sfread_double p fp ;;
        let p := wr aterm i j v p in
        '(v, fp) <- sfread_double p fp ;;
        let p := wr bterm i j v p in
        '(v, fp) <- sfread_double p fp ;;
        let p := wr cterm i j v p in
        '(v, fp) <- sfread_double p fp ;;
        let p := wr cut i j v p in
        Done (p, fp)
      else Done (p, fp)) s) (p, fp).

(** [write_data], [write_data_all]: the rows handed to [fprintf]. *)
Definition write_data (p : PairLJETEN) : list (Z * R * R * R) :=
  map (fun i => (i, rd p aterm i i, rd p bterm i i, rd p cterm i i))
      (zrange 1 (ntypes lmp)).

Definition write_data_all (p : PairLJETEN) : list (Z * Z * R * R * R * R) :=
  flat_map (fun i =>
    map (fun j => (i, j, rd p aterm i j, rd p bterm i j, rd p cterm i j, rd p cut i j))
        (zrange i (ntypes lmp)))
    (zrange 1 (ntypes lmp)).

End Restart.

(** ** single, born_matrix, extract *)

(** Returns the energy and [fforce]. *)
Definition single (p : PairLJETEN) (itype jtype : Z) (rsq factor_lj : R) : R * R :=
  let r2inv := 1 / rsq in
  let r6inv := r2inv * r2inv * r2inv in
  let forcelj :=
    r6inv * (rd p lj1 itype jtype * r6inv - rd p lj2 itype jtype * r2inv * r2inv
             + rd p lj3 itype jtype) in
  let fforce := factor_lj * forcelj * r2inv in
  let philj :=
    r6inv * (rd p lj4 itype jtype * r6inv - rd p lj5 itype jtype * r2inv * r2inv
             + rd p lj6 itype jtype) - rd p offset itype jtype in
  (factor_lj * philj, fforce).

(** Returns [dupair] and [du2pair]. *)
Definition born_matrix (p : PairLJETEN) (itype jtype : Z) (rsq factor_lj : R) : R * R :=
  let r2inv := 1 / rsq in
  let rinv := sqrt r2inv in
  let r6inv := r2inv * r2inv * r2inv in
  let du := r6inv * rinv * (rd p lj2 itype jtype - rd p lj1 itype jtype * r6inv) in
  let du2 := r6inv * r2inv * (13 * rd p lj1 itype jtype * r6inv - 7 * rd p lj2 itype jtype) in
  (factor_lj * du, factor_lj * du2).

(** Returns the array asked for, if any, and [dim]. *)
Definition extract (str : string) : option array2 * Z :=
  let dim := 2%Z in
  if String.eqb str "aterm" then (Some aterm, dim)
  else if String.eqb str "bterm" then (Some bterm, dim)
  else if String.eqb str "cterm" then (Some cterm, dim)
  else (None, dim).

(** ** The force loops *)

(** The function-scope doubles that live across iterations of the pair
    loops.  They are declared without an initial value (but [evdwl], set to
    0.0 on entry), so a loop starts from an arbitrary [locals]. *)
Record locals : Type := mkLocals {
  evdwl : R;
  fpair : R;
  r2inv : R;
  r6inv : R;
  forcelj : R;
  rsw : R
}.

Definition set_evdwl (v : R) (l : locals) : locals :=
  mkLocals v (fpair l) (r2inv l) (r6inv l) (forcelj l) (rsw l).
Definition set_fpair (v : R) (l : locals) : locals :=
  mkLocals (evdwl l) v (r2inv l) (r6inv l) (forcelj l) (rsw l).
Definition set_r2inv (v : R) (l : locals) : locals :=
  mkLocals (evdwl l) (fpair l) v (r6inv l) (forcelj l) (rsw l).
Definition set_r6inv (v : R) (l : locals) : locals :=
  mkLocals (evdwl l) (fpair l) (r2inv l) v (forcelj l) (rsw l).
Definition set_forcelj (v : R) (l : locals) : locals :=
  mkLocals (evdwl l) (fpair l) (r2inv l) (r6inv l) v (rsw l).
Definition set_rsw (v : R) (l : locals) : locals :=
  mkLocals (evdwl l) (fpair l) (r2inv l) (r6inv l) (forcelj l) v.

(** A call of [ev_tally] or of [virial_fdotr_compute]. *)
Inductive event : Type :=
| Ev_tally (i j nlocal newton_pair : Z) (evdwl ecoul fpair delx dely delz : R)
| Virial_fdotr_compute.

(** What a force loop changes: the force array and the tallies. *)
Record world : Type := mkWorld {
  f : Z -> Z -> R;                   (* atom->f *)
  tallies : list event
}.

Definition add_to (f : Z -> Z -> R) (a k : Z) (v : R) : Z -> Z -> R :=
  fun a' k' => if (a' =? a)%Z && (k' =? k)%Z then f a k + v else f a' k'.

Section Loops.

Variable lmp : LAMMPS.
Variable p : PairLJETEN.

(** [f[i] += del * fpair], and [f[j] -= del * fpair] under the newton test. *)
Definition apply_force (i j : Z) (delx dely delz fp : R) (w : world) : world :=
  let f := f w in
  let f := add_to f i 0 (delx * fp) in
  let f := add_to f i 1 (dely * fp) in
  let f := add_to f i 2 (delz * fp) in
  let f :=
    if truthy (newton_pair lmp) || (j <? nlocal lmp)%Z then
      let f := add_to f j 0 (- (delx * fp)) in
      let f := add_to f j 1 (- (dely * fp)) in
      add_to f j 2 (- (delz * fp))
    else f in
  mkWorld f (tallies w).

Definition ev_tally (i j : Z) (ev ecoul fp delx dely delz : R) (w : world) : world :=
  mkWorld (f w)
    (tallies w ++ [Ev_tally i j (nlocal lmp) (newton_pair lmp) ev ecoul fp delx dely delz]).

(** The pair loops share their frame: [visit] runs [body i j] for every
    [j] of [firstneigh[i]], for every [i] of [ilist].  [body] receives the
    neighbor entry as stored (with its special-bond bits). *)
Definition visit {S : Type} (il : list Z) (fn : Z -> list Z)
    (body : Z -> Z -> S -> S) (s : S) : S :=
  fold_left (fun s i => fold_left (fun s j => body i j s) (fn i) s) il s.

(** The four assignments every loop uses for the pair force:
    [r2inv], [r6inv], [forcelj], [fpair]. *)
Definition raw_force (itype jtype : Z) (rsq factor_lj : R) (l : locals) : locals :=
  let l := set_r2inv (1 / rsq) l in
  let l := set_r6inv (r2inv l * r2inv l * r2inv l) l in
  let l := set_forcelj
             (r6inv l * (rd p lj1 itype jtype * r6inv l
                         - rd p lj2 itype jtype * r2inv l * r2inv l
                         + rd p lj3 itype jtype)) l in
  set_fpair (factor_lj * forcelj l * r2inv l) l.

(** The two assignments to [evdwl] under [if (eflag)]. *)
Definition energy (itype jtype : Z) (factor_lj : R) (l : locals) : locals :=
  let l := set_evdwl
             (r6inv l * (rd p lj4 itype jtype * r6inv l
                         - rd p lj5 itype jtype * r2inv l * r2inv l
                         + rd p lj6 itype jtype)
              - rd p offset itype jtype) l in
  set_evdwl (evdwl l * factor_lj) l.

(** *** compute *)

(** The arithmetic of the block under [if (rsq < cutsq[itype][jtype])];
    [None] when the test fails. *)
Definition compute_block (eflag itype jtype : Z) (rsq factor_lj : R) (l : locals)
  : option locals :=
  if rsq <? rd p cutsq itype jtype then
    let l := raw_force itype jtype rsq factor_lj l in
    let l := if truthy eflag then energy itype jtype factor_lj l else l in
    Some l
  else None.

(** How every pair body starts: the special-bond factor, the masked
    neighbor index, the separation and its square. *)
Definition geometry (i j : Z) : Z * R * R * R * R * R :=
  let xtmp := x lmp i 0 in
  let ytmp := x lmp i 1 in
  let ztmp := x lmp i 2 in
  let factor_lj := special_lj lmp (sbmask lmp j) in
  let j := Z.land j (NEIGHMASK lmp) in
  let delx := xtmp - x lmp j 0 in
  let dely := ytmp - x lmp j 1 in
  let delz := ztmp - x lmp j 2 in
  let rsq := delx * delx + dely * dely + delz * delz in
  (j, delx, dely, delz, rsq, factor_lj).

Definition compute_pair (eflag evflag : Z) (i j : Z) (s : locals * world)
  : locals * world :=
  let '(l, w) := s in
  let itype := atom_type lmp i in
  let '(j, delx, dely, delz, rsq, factor_lj) := geometry i j in
  let jtype := atom_type lmp j in
  match compute_block eflag itype jtype rsq factor_lj l with
  | Some l =>
      let w := apply_force i j delx dely delz (fpair l) w in
      let w := if truthy evflag
               then ev_tally i j (evdwl l) 0 (fpair l) delx dely delz w else w in
      (l, w)
  | None => (l, w)
  end.

Definition compute (eflag vflag : Z) (l : locals) (w : world) : world :=
  let l := set_evdwl 0 l in
  let '(evflag, vflag_fdotr) := ev_init lmp eflag vflag in
  let '(_, w) :=
    visit (ilist (neighlist lmp)) (firstneigh (neighlist lmp))
          (compute_pair eflag evflag) (l, w) in
  if truthy vflag_fdotr
  then mkWorld (f w) (tallies w ++ [Virial_fdotr_compute]) else w.

(** *** compute_inner *)

Definition inner_block (cut_respa : Z -> R) (itype jtype : Z) (rsq factor_lj : R)
    (l : locals) : option locals :=
  let cut_out_on := cut_respa 0%Z in
  let cut_out_off := cut_respa 1%Z in
  let cut_out_diff := cut_out_off - cut_out_on in
  let cut_out_on_sq := cut_out_on * cut_out_on in
  let cut_out_off_sq := cut_out_off * cut_out_off in
  if rsq <? cut_out_off_sq then
    let l := raw_force itype jtype rsq factor_lj l in
    let l :=
      if rsq >? cut_out_on_sq then
        let l := set_rsw ((sqrt rsq - cut_out_on) / cut_out_diff) l in
        set_fpair (fpair l * (1 - rsw l * rsw l * (3 - 2 * rsw l))) l
      else l in
    Some l
  else None.

Definition inner_pair (cut_respa : Z -> R) (i j : Z) (s : locals * world)
  : locals * world :=
  let '(l, w) := s in
  let itype := atom_type lmp i in
  let '(j, delx, dely, delz, rsq, factor_lj) := geometry i j in
  match inner_block cut_respa itype (atom_type lmp j) rsq factor_lj l with
  | Some l => (l, apply_force i j delx dely delz (fpair l) w)
  | None => (l, w)
  end.

(** [cut_respa] is dereferenced without a test: with [nullptr] the
    behaviour is undefined ([None]). *)
Definition compute_inner (l : locals) (w : world) : option world :=
  match cut_respa p with
  | Some cr =>
      Some (snd (visit (ilist_inner (neighlist lmp)) (firstneigh_inner (neighlist lmp))
                       (inner_pair cr) (l, w)))
  | None => None
  end.

(** *** compute_middle *)

Definition middle_block (cut_respa : Z -> R) (itype jtype : Z) (rsq factor_lj : R)
    (l : locals) : option locals :=
  let cut_in_off := cut_respa 0%Z in
  let cut_in_on := cut_respa 1%Z in
  let cut_out_on := cut_respa 2%Z in
  let cut_out_off := cut_respa 3%Z in
  let cut_in_diff := cut_in_on - cut_in_off in
  let cut_out_diff := cut_out_off - cut_out_on in
  let cut_in_off_sq := cut_in_off * cut_in_off in
  let cut_in_on_sq := cut_in_on * cut_in_on in
  let cut_out_on_sq := cut_out_on * cut_out_on in
  let cut_out_off_sq := cut_out_off * cut_out_off in
  if (rsq <? cut_out_off_sq) && (rsq >? cut_in_off_sq) then
    let l := raw_force itype jtype rsq factor_lj l in
    let l :=
      if rsq <? cut_in_on_sq then
        let l := set_rsw ((sqrt rsq - cut_in_off) / cut_in_diff) l in
        set_fpair (fpair l * (rsw l * rsw l * (3 - 2 * rsw l))) l
      else l in
    let l :=
      if rsq >? cut_out_on_sq then
        let l := set_rsw ((sqrt rsq - cut_out_on) / cut_out_diff) l in
        set_fpair (fpair l * (1 + rsw l * rsw l * (2 * rsw l - 3))) l
      else l in
    Some l
  else None.

Definition middle_pair (cut_respa : Z -> R) (i j : Z) (s : locals * world)
  : locals * world :=
  let '(l, w) := s in
  let itype := atom_type lmp i in
  let '(j, delx, dely, delz, rsq, factor_lj) := geometry i j in
  match middle_block cut_respa itype (atom_type lmp j) rsq factor_lj l with
  | Some l => (l, apply_force i j delx dely delz (fpair l) w)
  | None => (l, w)
  end.

Definition compute_middle (l : locals) (w : world) : option world :=
  match cut_respa p with
  | Some cr =>
      Some (snd (visit (ilist_middle (neighlist lmp)) (firstneigh_middle (neighlist lmp))
                       (middle_pair cr) (l, w)))
  | None => None
  end.

(** *** compute_outer *)

(** [None] outside the pair cutoff.  Otherwise the [fpair] that was added
    to the forces, if the force branch ran, and the locals as [ev_tally]
    sees them. *)
Definition outer_block (cut_respa : Z -> R) (eflag vflag itype jtype : Z)
    (rsq factor_lj : R) (l : locals) : option (option R * locals) :=
  let cut_in_off := cut_respa 2%Z in
  let cut_in_on := cut_respa 3%Z in
  let cut_in_diff := cut_in_on - cut_in_off in
  let cut_in_off_sq := cut_in_off * cut_in_off in
  let cut_in_on_sq := cut_in_on * cut_in_on in
  if rsq <? rd p cutsq itype jtype then
    let '(added, l) :=
      if rsq >? cut_in_off_sq then
        let l := raw_force itype jtype rsq factor_lj l in
        let l :=
          if rsq <? cut_in_on_sq then
            let l := set_rsw ((sqrt rsq - cut_in_off) / cut_in_diff) l in
            set_fpair (fpair l * (rsw l * rsw l * (3 - 2 * rsw l))) l
          else l in
        (Some (fpair l), l)
      else (None, l) in
    let l :=
      if truthy eflag then
        let l := set_r2inv (1 / rsq) l in
        let l := set_r6inv (r2inv l * r2inv l * r2inv l) l in
        energy itype jtype factor_lj l
      else l in
    let l :=
      if truthy vflag then
        if rsq <=? cut_in_off_sq then raw_force itype jtype rsq factor_lj l
        else if rsq <? cut_in_on_sq then set_fpair (factor_lj * forcelj l * r2inv l) l
        else l
      else l in
    Some (added, l)
  else None.

Definition outer_pair (cut_respa : Z -> R) (eflag vflag evflag : Z) (i j : Z)
    (s : locals * world) : locals * world :=
  let '(l, w) := s in
  let itype := atom_type lmp i in
  let '(j, delx, dely, delz, rsq, factor_lj) := geometry i j in
  let jtype := atom_type lmp j in
  match outer_block cut_respa eflag vflag itype jtype rsq factor_lj l with
  | Some (added, l) =>
      let w := match added with
               | Some fp => apply_force i j delx dely delz fp w
               | None => w
               end in
      let w := if truthy evflag
               then ev_tally i j (evdwl l) 0 (fpair l) delx dely delz w else w in
      (l, w)
  | None => (l, w)
  end.

Definition compute_outer (eflag vflag : Z) (l : locals) (w : world) : option world :=
  let l := set_evdwl 0 l in
  let '(evflag, _) := ev_init lmp eflag vflag in
  match cut_respa p with
  | Some cr =>
      Some (snd (visit (ilist (neighlist lmp)) (firstneigh (neighlist lmp))
                       (outer_pair cr eflag vflag evflag) (l, w)))
  | None => None
  end.

End Loops.

(** ** Finalized type pairs *)

(** The entry [it][jt] is ready for the force loops, with coefficients
    [a], [b], [c] and cutoff [rc]: this is what [init_one] leaves in the
    derived arrays, and what the engine then stores in [cutsq] from the
    value [init_one] returns. *)
Definition finalized (p : PairLJETEN) (it jt : Z) (a b c rc : R) : Prop :=
  rd p lj1 it jt = 12 * a /\ rd p lj2 it jt = 10 * b /\ rd p lj3 it jt = 6 * c /\
  rd p lj4 it jt = a /\ rd p lj5 it jt = b /\ rd p lj6 it jt = c /\
  rd p offset it jt = 0 /\ rd p cutsq it jt = rc * rc.

(** [cutsq] is read by the force loops and never written in this file: it
    is the engine, as the caller of [init_one], that stores the square of
    the returned cutoff, [cutsq[i][j] = cutsq[j][i] = cut*cut].  Under this
    store the test [rsq < cutsq[itype][jtype]] is the test rsq < cutoff^2. *)
Definition store_cutsq (i j : Z) (rc : R) (p : PairLJETEN) : PairLJETEN :=
  wr cutsq i j (rc * rc) (wr cutsq j i (rc * rc) p).

(** The arrays [coeff] and the restart file fill, and the arrays
    [init_one] computes from them. *)
Definition is_input (a : array2) : Prop :=
  a = aterm \/ a = bterm \/ a = cterm \/ a = cut \/ a = cutsq.

Definition is_derived (a : array2) : Prop :=
  a = lj1 \/ a = lj2 \/ a = lj3 \/ a = lj4 \/ a = lj5 \/ a = lj6 \/ a = offset.

(** ** A small system *)

(** Two atom types; four atoms on the x axis at 0, 5, 11 and 3/2, the last
    one of type 2.  The engine mixes distances by their arithmetic mean and
    runs on one rank. *)
Module Example.

Definition positions (a k : Z) : R :=
  if (k =? 0)%Z then
    if (a =? 1)%Z then 5 else if (a =? 2)%Z then 11
    else if (a =? 3)%Z then 3 / 2 else 0
  else 0.

Definition types (a : Z) : Z := if (a =? 3)%Z then 2%Z else 1%Z.

Definition neighbors : NeighList :=
  mkNeighList [0%Z] (fun _ => [1%Z; 2%Z; 3%Z])
              [0%Z] (fun _ => [3%Z]) [0%Z] (fun _ => [3%Z]).

(** The array [cutoff] of an rRESPA integrator with the four radii. *)
Definition shells (c0 c1 c2 c3 : R) (k : Z) : R :=
  if (k =? 0)%Z then c0 else if (k =? 1)%Z then c1
  else if (k =? 2)%Z then c2 else c3.

Definition engine (integrate : option Respa) : LAMMPS :=
  mkLAMMPS 2 4 types positions (fun _ => 1) 1
    (fun j => Z.land (Z.shiftr j 30) 3) 536870911
    neighbors integrate 1
    (fun eflag vflag => (if truthy eflag || truthy vflag then 1%Z else 0%Z, 0%Z))
    (fun _ a b => (a + b) / 2)
    (fun v => v).

(** The engine under a plain integrator. *)
Definition lmp : LAMMPS := engine None.

(** The engine under a three-level rRESPA integrator. *)
Definition lmp_respa (c0 c1 c2 c3 : R) : LAMMPS :=
  engine (Some (mkRespa 0 1 (shells c0 c1 c2 c3))).

(** Storage that happens to be zero-filled. *)
Definition zeros : Fresh := mkFresh (fun _ _ => 0%Z) (fun _ _ _ => 0).

(** The object before any command. *)
Definition new_pair : PairLJETEN :=
  mkPair false (fun _ _ => 0%Z) (fun _ _ _ => 0) 0 0 0 0 None 0 0.

(** The value of a run that does not abort. *)
Definition value {A : Type} (d : A) (o : outcome PairLJETEN A) : A :=
  match o with Done a => a | Abort _ _ => d end.

Definition after_init_one (i j : Z) (p : PairLJETEN) : PairLJETEN :=
  match init_one lmp i j p with
  | Done (p', rc) => store_cutsq i j rc p'
  | Abort _ p' => p'
  end.

(** [pair_style] with cutoff 10, then [pair_coeff 1 1 1000 2000 50]. *)
Definition configured : PairLJETEN :=
  let p := value new_pair (settings lmp [10] new_pair) in
  value p (coeff lmp zeros 1 1 1 1 [1000; 2000; 50] p).

Definition ready : PairLJETEN := after_init_one 1 1 configured.

(** [pair_style] with cutoff 10, then [pair_coeff 1 2 5 6 7]. *)
Definition cross : PairLJETEN :=
  let p := value new_pair (settings lmp [10] new_pair) in
  value p (coeff lmp zeros 1 1 2 2 [5; 6; 7] p).

(** [pair_style] with cutoff 10, then [pair_coeff 1 1 1000 2000 50 7]:
    the pair has a cutoff of its own. *)
Definition overridden : PairLJETEN :=
  let p := value new_pair (settings lmp [10] new_pair) in
  value p (coeff lmp zeros 1 1 1 1 [1000; 2000; 50; 7] p).

(** The same table after [init_style] under an rRESPA integrator with
    shell radii 1, 2, 3, 4, and with 8, 9, 10, 11. *)
Definition under_respa : PairLJETEN :=
  snd (init_style (lmp_respa 1 2 3 4) overridden).

Definition under_wide_respa : PairLJETEN :=
  snd (init_style (lmp_respa 8 9 10 11) overridden).

(** [under_respa] after [init_one(1,1)]: cutoff 7, squared 49. *)
Definition respa_ready : PairLJETEN := after_init_one 1 1 under_respa.

(** Cutoff 10, [pair_coeff 1 1 1000 2000 50] and [pair_coeff 2 2 3 4 5];
    the pair (1,2) is left to mixing.  Then [init_one] on the three pairs. *)
Definition two_types : PairLJETEN :=
  let p := value new_pair (settings lmp [10] new_pair) in
  let p := value p (coeff lmp zeros 1 1 1 1 [1000; 2000; 50] p) in
  let p := value p (coeff lmp zeros 2 2 2 2 [3; 4; 5] p) in
  after_init_one 2 2 (after_init_one 1 2 (after_init_one 1 1 p)).

Definition any_locals : locals := mkLocals 0 0 0 0 0 0.

Definition still : world := mkWorld (fun _ _ => 0) [].

End Example.

(** ** Observations on a pair of the neighbor list *)



(** ** The pairs a nested loop visits *)

(** [for (i = lo; i <= hi; i++) for (j = jlo(i); j <= jhi; j++)]: the
    index pairs in the order the body sees them. *)
Definition pairs (lo hi : Z) (jlo : Z -> Z) (jhi : Z) : list (Z * Z) :=
  flat_map (fun i => map (fun j => (i, j)) (zrange (jlo i) jhi)) (zrange lo hi).

Definition pair_eqb (a b : Z * Z) : bool :=
  (fst a =? fst b)%Z && (snd a =? snd b)%Z.

(** Membership in [pairs], as a test. *)
Definition visited (l : list (Z * Z)) (i j : Z) : bool :=
  existsb (pair_eqb (i, j)) l.

(** The cutoff [init_one] settles on for the pair. *)
Definition pair_cutoff (lmp : LAMMPS) (i j : Z) (p : PairLJETEN) : R :=
  if (setflag p i j =? 0)%Z
  then mix_distance lmp (mix_flag p) (rd p cut i i) (rd p cut j j)
  else rd p cut i j.

(** ** What a shell mode adds to the forces *)

(** The raw pair force magnitude: [fforce] of [single]. *)
Definition fforce (p : PairLJETEN) (itype jtype : Z) (rsq factor_lj : R) : R :=
  snd (single p itype jtype rsq factor_lj).

(** The [fpair] a block hands to the force update, nothing (0) when the
    block is skipped. *)
Definition inner_magnitude (p : PairLJETEN) (cr : Z -> R) (it jt : Z)
    (rsq factor_lj : R) (l : locals) : R :=
  match inner_block p cr it jt rsq factor_lj l with
  | Some l' => fpair l'
  | None => 0
  end.

Definition middle_magnitude (p : PairLJETEN) (cr : Z -> R) (it jt : Z)
    (rsq factor_lj : R) (l : locals) : R :=
  match middle_block p cr it jt rsq factor_lj l with
  | Some l' => fpair l'
  | None => 0
  end.

Definition outer_magnitude (p : PairLJETEN) (cr : Z -> R) (eflag vflag it jt : Z)
    (rsq factor_lj : R) (l : locals) : R :=
  match outer_block p cr eflag vflag it jt rsq factor_lj l with
  | Some (Some fp, _) => fp
  | _ => 0
  end.

(** The [fpair] that [compute_outer] passes to [ev_tally] for a pair inside
    the cutoff. *)
Definition outer_tallied (p : PairLJETEN) (cr : Z -> R) (eflag vflag it jt : Z)
    (rsq factor_lj : R) (l : locals) : option R :=
  match outer_block p cr eflag vflag it jt rsq factor_lj l with
  | Some (_, l') => Some (fpair l')
  | None => None
  end.

(** ** Restart records *)

(** The arrays a restart file carries. *)
Definition is_coeff (a : array2) : Prop :=
  a = aterm \/ a = bterm \/ a = cterm \/ a = cut.

Definition is_coeffb (a : array2) : bool :=
  match a with
  | aterm | bterm | cterm | cut => true
  | _ => false
  end.

(** The cells [write_restart_settings] and one turn of the loop of
    [write_restart] append. *)
Definition header (p : PairLJETEN) : list cell :=
  [DoubleCell (cut_global p); IntCell (offset_flag p); IntCell (mix_flag p);
   IntCell (tail_flag p)].

Definition record (p : PairLJETEN) (ij : Z * Z) : list cell :=
  IntCell (setflag p (fst ij) (snd ij))
  :: (if truthy (setflag p (fst ij) (snd ij))
      then [DoubleCell (rd p aterm (fst ij) (snd ij));
            DoubleCell (rd p bterm (fst ij) (snd ij));
            DoubleCell (rd p cterm (fst ij) (snd ij));
            DoubleCell (rd p cut (fst ij) (snd ij))]
      else []).

(** What one turn of the loop of [read_restart] stores when it reads the
    record of [p] for the pair. *)
Definition restore (p : PairLJETEN) (q : PairLJETEN) (ij : Z * Z) : PairLJETEN :=
  let i := fst ij in
  let j := snd ij in
  let q := wr_setflag i j (setflag p i j) q in
  if truthy (setflag p i j) then
    wr cut i j (rd p cut i j)
      (wr cterm i j (rd p cterm i j)
         (wr bterm i j (rd p bterm i j)
            (wr aterm i j (rd p aterm i j) q)))
  else q.

(** ** The pair energy of the specification *)

(** The pair energy as the specification writes it,
    U(r) = a r^-12 - b r^-10 + c r^-6, and its first and second derivative
    in r.  [single] and [born_matrix] are compared with these. *)
Definition spec_pair_energy (a b c r : R) : R :=
  a * / r ^ 12 - b * / r ^ 10 + c * / r ^ 6.

Definition spec_pair_energy_d1 (a b c r : R) : R :=
  - 12 * a / r ^ 13 + 10 * b / r ^ 11 - 6 * c / r ^ 7.

Definition spec_pair_energy_d2 (a b c r : R) : R :=
  156 * a / r ^ 14 - 110 * b / r ^ 12 + 42 * c / r ^ 8.

(** * Properties *)

(** ** Comparisons and table accesses *)

Lemma Rltb_true (a b : R) : a < b -> (a <? b) = true.
Proof. intro H. unfold Rltb. destruct (Rlt_dec a b); [reflexivity | contradiction]. Qed.

Lemma Rltb_false (a b : R) : b <= a -> (a <? b) = false.
Proof. intro H. unfold Rltb. destruct (Rlt_dec a b); [lra | reflexivity]. Qed.

Lemma Rgtb_true (a b : R) : b < a -> (a >? b) = true.
Proof. intro H. unfold Rgtb. destruct (Rgt_dec a b); [reflexivity | lra]. Qed.

Lemma Rgtb_false (a b : R) : a <= b -> (a >? b) = false.
Proof. intro H. unfold Rgtb. destruct (Rgt_dec a b); [lra | reflexivity]. Qed.

Lemma Rleb_true (a b : R) : a <= b -> (a <=? b) = true.
Proof. intro H. unfold Rleb. destruct (Rle_dec a b); [reflexivity | contradiction]. Qed.

Lemma Rleb_false (a b : R) : b < a -> (a <=? b) = false.
Proof. intro H. unfold Rleb. destruct (Rle_dec a b); [lra | reflexivity]. Qed.

Lemma array2_beq_refl (a : array2) : array2_beq a a = true.
Proof. destruct a; reflexivity. Qed.

Lemma array2_beq_neq (a b : array2) : a <> b -> array2_beq a b = false.
Proof. destruct a, b; intro H; try reflexivity; contradiction H; reflexivity. Qed.

Lemma rd_wr_same (a : array2) (i j : Z) (v : R) (p : PairLJETEN) :
  rd (wr a i j v p) a i j = v.
Proof.
  unfold rd, wr; simpl. now rewrite array2_beq_refl, !Z.eqb_refl.
Qed.

Lemma rd_wr_array (a a' : array2) (i j i' j' : Z) (v : R) (p : PairLJETEN) :
  a' <> a -> rd (wr a i j v p) a' i' j' = rd p a' i' j'.
Proof.
  intro H. unfold rd, wr; simpl. now rewrite (array2_beq_neq a' a H).
Qed.

Lemma rd_wr_index (a a' : array2) (i j i' j' : Z) (v : R) (p : PairLJETEN) :
  (i', j') <> (i, j) -> rd (wr a i j v p) a' i' j' = rd p a' i' j'.
Proof.
  intro H. unfold rd, wr; simpl.
  destruct (Z.eqb_spec i' i); destruct (Z.eqb_spec j' j);
    rewrite ?andb_false_r; simpl; try reflexivity.
  subst. contradiction H; reflexivity.
Qed.

Lemma rd_wr_setflag (a : array2) (i j i' j' n : Z) (p : PairLJETEN) :
  rd (wr_setflag i j n p) a i' j' = rd p a i' j'.
Proof. reflexivity. Qed.

Lemma setflag_wr (a : array2) (i j : Z) (v : R) (p : PairLJETEN) :
  setflag (wr a i j v p) = setflag p.
Proof. reflexivity. Qed.

(** ** Reading a table after [init_one] *)

(** Reads of an array other than the one written, and reads of the entry
    just written. *)
Ltac rdwr :=
  repeat match goal with
  | |- context [rd (wr ?a ?i ?j ?v ?p) ?a ?i ?j] =>
      rewrite (rd_wr_same a i j v p)
  | |- context [rd (wr ?a ?i ?j ?v ?p) ?a' ?i' ?j'] =>
      rewrite (rd_wr_array a a' i j i' j' v p) by discriminate
  | |- context [rd (wr_setflag ?i ?j ?n ?p) ?a ?i' ?j'] =>
      rewrite (rd_wr_setflag a i j i' j' n p)
  end.

Section InitOne.

Variable lmp : LAMMPS.

Lemma derive_spec (i j : Z) (p : PairLJETEN) :
  rd (derive i j p) lj1 i j = 12 * rd p aterm i j /\
  rd (derive i j p) lj2 i j = 10 * rd p bterm i j /\
  rd (derive i j p) lj3 i j = 6 * rd p cterm i j /\
  rd (derive i j p) lj4 i j = rd p aterm i j /\
  rd (derive i j p) lj5 i j = rd p bterm i j /\
  rd (derive i j p) lj6 i j = rd p cterm i j /\
  rd (derive i j p) offset i j = 0.
Proof. unfold derive. repeat split; rdwr; reflexivity. Qed.

Lemma derive_input (i j i' j' : Z) (a : array2) (p : PairLJETEN) :
  is_input a -> rd (derive i j p) a i' j' = rd p a i' j'.
Proof.
  unfold is_input, derive. intros H; decompose [or] H; subst; rdwr; reflexivity.
Qed.

Lemma mirror_input (i j i' j' : Z) (a : array2) (p : PairLJETEN) :
  is_input a -> rd (mirror i j p) a i' j' = rd p a i' j'.
Proof.
  unfold is_input, mirror. intros H; decompose [or] H; subst; rdwr; reflexivity.
Qed.

Lemma mirror_ji (i j : Z) (a : array2) (p : PairLJETEN) :
  is_derived a -> rd (mirror i j p) a j i = rd p a i j.
Proof.
  unfold is_derived, mirror. intros H; decompose [or] H; subst; rdwr; reflexivity.
Qed.

Lemma mirror_ij (i j : Z) (a : array2) (p : PairLJETEN) :
  is_derived a -> rd (mirror i j p) a i j = rd p a i j.
Proof.
  intro H. destruct (Z.eq_dec i j) as [->|Hij].
  - now apply mirror_ji.
  - assert (Hne : (i, j) <> (j, i)) by congruence.
    unfold mirror. now rewrite !rd_wr_index by exact Hne.
Qed.

End InitOne.

(** ** The result of [init_one] *)

Section InitOneResult.

Variable lmp : LAMMPS.

Lemma tab_tail_correction (i j : Z) (p : PairLJETEN) :
  tab (tail_correction lmp i j p) = tab p.
Proof. reflexivity. Qed.

(** A successful [init_one] returns the arrays of [init_arrays] and the
    cutoff stored for the pair. *)
Lemma init_one_Done (i j : Z) (p p' : PairLJETEN) (rc : R) :
  init_one lmp i j p = Done (p', rc) ->
  tab p' = tab (init_arrays lmp i j p) /\
  setflag p' = setflag p /\
  rc = rd p' cut i j.
Proof.
  unfold init_one. set (q := init_arrays lmp i j p).
  destruct (match cut_respa q with Some cr => rd q cut i j <? cr 3%Z | None => false end);
    [discriminate|].
  assert (Hs : setflag q = setflag p).
  { unfold q, init_arrays, fill_unset.
    destruct (setflag p i j =? 0)%Z; reflexivity. }
  destruct (truthy (tail_flag q)); intro H; injection H as <- <-;
    repeat split; assumption.
Qed.

Lemma init_arrays_derived (i j : Z) (p : PairLJETEN) :
  let q := init_arrays lmp i j p in
  rd q lj1 i j = 12 * rd q aterm i j /\ rd q lj2 i j = 10 * rd q bterm i j /\
  rd q lj3 i j = 6 * rd q cterm i j /\ rd q lj4 i j = rd q aterm i j /\
  rd q lj5 i j = rd q bterm i j /\ rd q lj6 i j = rd q cterm i j /\
  rd q offset i j = 0.
Proof.
  intro q. unfold q, init_arrays.
  set (r := reassign i j (fill_unset lmp i j p)).
  repeat match goal with
  | |- context [rd (mirror i j ?s) ?a i j] =>
      first [ rewrite (mirror_ij i j a s) by (unfold is_derived; tauto)
            | rewrite (mirror_input i j i j a s) by (unfold is_input; tauto) ]
  end.
  rewrite (derive_input i j i j aterm), (derive_input i j i j bterm),
    (derive_input i j i j cterm) by (unfold is_input; tauto).
  apply derive_spec.
Qed.

Lemma init_arrays_mirrored (i j : Z) (p : PairLJETEN) (a : array2) :
  is_derived a ->
  rd (init_arrays lmp i j p) a j i = rd (init_arrays lmp i j p) a i j.
Proof.
  intro H. unfold init_arrays. now rewrite (mirror_ji i j a), (mirror_ij i j a).
Qed.

(** After [init_one] and the store into [cutsq], both orientations of the
    pair are finalized with the coefficients stored at [i][j]. *)
Lemma init_one_finalized (i j : Z) (p p' : PairLJETEN) (rc : R) :
  init_one lmp i j p = Done (p', rc) ->
  let p'' := store_cutsq i j rc p' in
  finalized p'' i j (rd p' aterm i j) (rd p' bterm i j) (rd p' cterm i j) rc /\
  finalized p'' j i (rd p' aterm i j) (rd p' bterm i j) (rd p' cterm i j) rc.
Proof.
  intros H p''. destruct (init_one_Done _ _ _ _ _ H) as (Ht & _ & _).
  assert (Hrd : forall a i' j', rd p' a i' j' = rd (init_arrays lmp i j p) a i' j')
    by (intros; unfold rd; now rewrite Ht).
  pose proof (init_arrays_derived i j p) as D; cbv zeta in D.
  pose proof (init_arrays_mirrored i j p) as M.
  unfold finalized, p'', store_cutsq.
  rdwr. rewrite !Hrd.
  rewrite !M by (unfold is_derived; tauto).
  destruct D as (D1 & D2 & D3 & D4 & D5 & D6 & D7).
  repeat split; try assumption.
  destruct (Z.eq_dec i j) as [->|Hij].
  - now rewrite rd_wr_same.
  - rewrite rd_wr_index, rd_wr_same; [reflexivity|].
    congruence.
Qed.

End InitOneResult.

(** Evaluation on concrete tables: everything but the real arithmetic. *)
Ltac crunch :=
  cbv -[Rplus Rmult Rminus Ropp Rdiv Rinv IZR Rltb Rgtb Rleb sqrt PI Rlt Rle Rgt Rge].
Ltac crunch_in H :=
  cbv -[Rplus Rmult Rminus Ropp Rdiv Rinv IZR Rltb Rgtb Rleb sqrt PI Rlt Rle Rgt Rge] in H.

(** Comparisons of numerals, one at a time. *)
Ltac decide_cmp :=
  match goal with
  | |- context [Rltb ?a ?b] =>
      first [rewrite (Rltb_true a b) by lra | rewrite (Rltb_false a b) by lra]
  | |- context [Rgtb ?a ?b] =>
      first [rewrite (Rgtb_true a b) by lra | rewrite (Rgtb_false a b) by lra]
  | |- context [Rleb ?a ?b] =>
      first [rewrite (Rleb_true a b) by lra | rewrite (Rleb_false a b) by lra]
  end.

Ltac run := crunch; repeat (decide_cmp; crunch).

(** ** The tables of the small system *)

Lemma ready_finalized : finalized Example.ready 1 1 1000 2000 50 10.
Proof. unfold finalized. run. repeat split; reflexivity. Qed.

Lemma respa_ready_finalized : finalized Example.respa_ready 1 1 1000 2000 50 7.
Proof. unfold finalized. run. repeat split; reflexivity. Qed.

Lemma sqrt_49_4 : sqrt (49 / 4) = 7 / 2.
Proof. apply sqrt_lem_1; lra. Qed.

(** ** The pair force inside the cutoff (C1) *)

Lemma raw_force_fpair (p : PairLJETEN) (it jt : Z) (rsq factor : R) (l : locals) :
  fpair (raw_force p it jt rsq factor l) =
  factor * ((1 / rsq * (1 / rsq) * (1 / rsq))
            * (rd p lj1 it jt * (1 / rsq * (1 / rsq) * (1 / rsq))
               - rd p lj2 it jt * (1 / rsq) * (1 / rsq) + rd p lj3 it jt))
         * (1 / rsq).
Proof. reflexivity. Qed.

Lemma energy_fpair (p : PairLJETEN) (it jt : Z) (factor : R) (l : locals) :
  fpair (energy p it jt factor l) = fpair l.
Proof. reflexivity. Qed.

(** C1. For a finalized type pair with coefficients a, b, c and cutoff rc,
    and 0 < rsq < rc^2, the force magnitude that [compute] puts in [fpair]
    and that [single] returns in [fforce] is
    factor * r2inv * r6inv * (12 a r6inv - 10 b r2inv^2 + 6 c) with
    r2inv = 1/rsq and r6inv = r2inv^3; for a = 1000, b = 2000, c = 50,
    rc = 10 and rsq = 25 this is
    factor * 0.04 * 6.4e-5 * (12000 * 6.4e-5 - 20000 * 0.0016 + 300). *)
Theorem force_magnitude_formula
    (p : PairLJETEN) (it jt eflag : Z) (a b c rc rsq factor : R) (l : locals) :
  finalized p it jt a b c rc ->
  0 < rsq < rc * rc ->
  let r2 := 1 / rsq in
  let r6 := r2 * r2 * r2 in
  let F := factor * r2 * r6 * (12 * a * r6 - 10 * b * (r2 * r2) + 6 * c) in
  (exists l', compute_block p eflag it jt rsq factor l = Some l' /\ fpair l' = F) /\
  snd (single p it jt rsq factor) = F /\
  (a = 1000 -> b = 2000 -> c = 50 -> rc = 10 -> rsq = 25 ->
   F = factor * 0.04 * 6.4e-5 * (12000 * 6.4e-5 - 20000 * 0.0016 + 300)).
Proof.
  intros (H1 & H2 & H3 & _ & _ & _ & _ & Hc) [Hpos Hlt] r2 r6 F.
  split; [|split].
  - unfold compute_block. rewrite Rltb_true by (rewrite Hc; exact Hlt).
    eexists; split; [reflexivity|].
    assert (E : forall l0, fpair (raw_force p it jt rsq factor l0) = F).
    { intro l0. rewrite raw_force_fpair, H1, H2, H3. unfold F, r6, r2. ring. }
    destruct (truthy eflag); [rewrite energy_fpair|]; apply E.
  - unfold single; simpl. rewrite H1, H2, H3. unfold F, r6, r2. ring.
  - intros -> -> -> -> ->. unfold F, r6, r2. lra.
Qed.

(** C1 on the small system: a = 1000, b = 2000, c = 50, cutoff 10, rsq = 25. *)
Lemma force_magnitude_formula_witness :
  finalized Example.ready 1 1 1000 2000 50 10 /\
  0 < 25 < 10 * 10 /\
  snd (single Example.ready 1 1 25 1)
  = 1 * 0.04 * 6.4e-5 * (12000 * 6.4e-5 - 20000 * 0.0016 + 300).
Proof.
  pose proof ready_finalized as Hf.
  assert (Hr : 0 < 25 < 10 * 10) by lra.
  split; [exact Hf|]. split; [exact Hr|].
  destruct (force_magnitude_formula Example.ready 1 1 0 1000 2000 50 10 25 1
              Example.any_locals Hf Hr) as (_ & Hs & Hc).
  rewrite Hs. apply Hc; reflexivity.
Defined.

(** ** Beyond the cutoff (C2) *)



(** The whole loop of [compute] on the small system, with [eflag] set: of
    the three neighbors of atom 0 only atom 1 (5 apart, cutoff 10) is
    tallied, with the energy and force of [single] at rsq = 25; atom 2 (11
    apart) and atom 3 (type pair (1,2), whose [cutsq] is 0) are skipped. *)
Lemma compute_small_system :
  tallies (compute Example.lmp Example.ready 1 0 Example.any_locals Example.still)
  = [Ev_tally 0 1 4 1 (fst (single Example.ready 1 1 25 1)) 0
              (snd (single Example.ready 1 1 25 1)) (-5) 0 0].
Proof.
  destruct ready_finalized as (_ & _ & _ & _ & _ & _ & _ & H8).
  assert (H12 : rd Example.ready cutsq 1 2 = 0) by (run; reflexivity).
  unfold compute, visit, compute_pair, geometry, compute_block.
  cbn -[Rplus Rmult Rminus Ropp Rdiv Rinv IZR Rltb Rgtb Rleb sqrt PI Rlt Rle Rgt Rge
        rd Example.ready raw_force energy apply_force].
  rewrite H8, H12. repeat decide_cmp.
  cbn -[Rplus Rmult Rminus Ropp Rdiv Rinv IZR Rltb Rgtb Rleb sqrt PI Rlt Rle Rgt Rge
        rd Example.ready raw_force energy apply_force].
  replace ((0 - 5) * (0 - 5) + (0 - 0) * (0 - 0) + (0 - 0) * (0 - 0)) with 25 by lra.
  replace (0 - 5) with (-5) by lra. replace (0 - 0) with 0 by lra.
  unfold single, energy, raw_force;
    cbn [fst snd tallies apply_force app evdwl fpair r2inv r6inv forcelj
         set_evdwl set_fpair set_r2inv set_r6inv set_forcelj Example.still].
  f_equal. f_equal; ring.
Qed.

(** [single] has no cutoff test of its own: it evaluates the same formulas
    at any distance, as here at rsq = 121 beyond the squared cutoff 100.
    The test is left to whoever calls it. *)
Lemma single_beyond_cutoff :
  rd Example.ready cutsq 1 1 = 100 /\
  snd (single Example.ready 1 1 121 1) <> 0.
Proof.
  destruct ready_finalized as (H1 & H2 & H3 & _ & _ & _ & _ & H8).
  split; [rewrite H8; lra|].
  unfold single; cbn [snd]. rewrite H1, H2, H3. lra.
Qed.

(** ** What [init_one] mirrors (C3) *)

Section Mirror.

Variable lmp : LAMMPS.

Lemma fill_unset_other (i j i' j' : Z) (a : array2) (p : PairLJETEN) :
  (i', j') <> (i, j) -> rd (fill_unset lmp i j p) a i' j' = rd p a i' j'.
Proof.
  intro H. unfold fill_unset. destruct (setflag p i j =? 0)%Z; [|reflexivity].
  now rewrite !rd_wr_index by exact H.
Qed.

Lemma reassign_same (i j i' j' : Z) (a : array2) (p : PairLJETEN) :
  rd (reassign i j p) a i' j' = rd p a i' j'.
Proof.
  unfold reassign.
  assert (E : forall b v q, v = rd q b i j -> rd (wr b i j v q) a i' j' = rd q a i' j').
  { intros b v q ->. unfold rd, wr; simpl.
    destruct (array2_beq a b) eqn:Eb; [|reflexivity].
    apply internal_array2_dec_bl in Eb. subst b.
    destruct (Z.eqb_spec i' i); [|reflexivity].
    destruct (Z.eqb_spec j' j); [|reflexivity]. now subst. }
  rewrite E; [rewrite E; [rewrite E; reflexivity|] |]; rdwr; reflexivity.
Qed.

(** The inputs at an entry other than [i][j] are not written. *)
Lemma init_arrays_input_other (i j i' j' : Z) (a : array2) (p : PairLJETEN) :
  is_input a -> (i', j') <> (i, j) ->
  rd (init_arrays lmp i j p) a i' j' = rd p a i' j'.
Proof.
  intros Ha H. unfold init_arrays.
  rewrite mirror_input, derive_input, reassign_same by exact Ha.
  now apply fill_unset_other.
Qed.

End Mirror.

(** C3, as amended. After a successful [init_one(i,j)] the derived
    constants of [j][i] (lj1 to lj6, offset) equal those of [i][j]; the
    inputs of [j][i] (aterm, bterm, cterm, cut) are not written: for i <> j
    they hold what they held before the call. *)
Theorem init_one_mirrors_derived
    (lmp : LAMMPS) (i j : Z) (p p' : PairLJETEN) (rc : R) :
  init_one lmp i j p = Done (p', rc) ->
  (forall a, is_derived a -> rd p' a j i = rd p' a i j) /\
  (i <> j -> forall a, is_input a -> rd p' a j i = rd p a j i).
Proof.
  intro H. destruct (init_one_Done _ _ _ _ _ _ H) as (Ht & _ & _).
  assert (Hrd : forall a i' j', rd p' a i' j' = rd (init_arrays lmp i j p) a i' j')
    by (intros; unfold rd; now rewrite Ht).
  split.
  - intros a Ha. rewrite !Hrd. now apply init_arrays_mirrored.
  - intros Hij a Ha. rewrite Hrd. apply init_arrays_input_other; [exact Ha|congruence].
Qed.

(** C3 on the small system: [init_one(1,2)] after [pair_coeff 1 2 5 6 7]. *)
Lemma init_one_mirrors_derived_witness :
  match init_one Example.lmp 1 2 Example.cross with
  | Done (p', _) =>
      rd p' lj1 2 1 = rd p' lj1 1 2 /\
      rd p' aterm 2 1 = rd Example.cross aterm 2 1
  | Abort _ _ => False
  end.
Proof.
  destruct (init_one Example.lmp 1 2 Example.cross) as [[p' rc]|msg q] eqn:E.
  - destruct (init_one_mirrors_derived Example.lmp 1 2 Example.cross p' rc E)
      as [Hd Hi].
    split.
    + apply Hd. unfold is_derived; tauto.
    + apply Hi; [discriminate | unfold is_input; tauto].
  - crunch_in E. discriminate E.
Defined.

(** C3, counterexample. With [pair_coeff 1 2 5 6 7] on zero-filled storage,
    [init_one(1,2)] succeeds and leaves aterm[2][1] = 0 while
    aterm[1][2] = 5: the inputs are not mirrored. *)
Lemma init_one_inputs_not_mirrored :
  match init_one Example.lmp 1 2 Example.cross with
  | Done (p', _) =>
      rd p' aterm 1 2 = 5 /\ rd p' aterm 2 1 = 0 /\
      rd p' aterm 2 1 <> rd p' aterm 1 2
  | Abort _ _ => False
  end.
Proof. crunch. repeat split; try reflexivity. lra. Qed.

(** ** Loops *)

Lemma zrange_nil (lo hi : Z) : (hi < lo)%Z -> zrange lo hi = [].
Proof.
  intro H. unfold zrange.
  replace (Z.to_nat (hi - lo + 1)) with 0%nat by lia. reflexivity.
Qed.

Lemma In_zrange (lo hi k : Z) : In k (zrange lo hi) <-> (lo <= k <= hi)%Z.
Proof.
  unfold zrange. rewrite in_map_iff. split.
  - intros (n & <- & Hn). apply in_seq in Hn. lia.
  - intro H. exists (Z.to_nat (k - lo)). split; [lia|]. apply in_seq. lia.
Qed.

Lemma for_pairs {S : Type} (lo hi : Z) (jlo : Z -> Z) (jhi : Z)
    (body : Z -> Z -> S -> S) (s : S) :
  for_ lo hi (fun i s => for_ (jlo i) jhi (fun j s => body i j s) s) s
  = fold_left (fun s ij => body (fst ij) (snd ij) s) (pairs lo hi jlo jhi) s.
Proof.
  unfold for_, pairs. revert s.
  induction (zrange lo hi) as [|i l IH]; intro s; simpl; [reflexivity|].
  rewrite fold_left_app, <- IH. f_equal.
  generalize (zrange (jlo i) jhi). intro js. revert s.
  induction js as [|j js IHj]; intro s; simpl; [reflexivity|apply IHj].
Qed.

Lemma pair_eqb_true (a b : Z * Z) : pair_eqb a b = true <-> a = b.
Proof.
  destruct a as [a1 a2], b as [b1 b2]. unfold pair_eqb; simpl.
  rewrite andb_true_iff, !Z.eqb_eq. split; [intros [-> ->]; reflexivity|].
  intro E; inversion E; auto.
Qed.

Lemma visited_pairs (lo hi : Z) (jlo : Z -> Z) (jhi i j : Z) :
  visited (pairs lo hi jlo jhi) i j = true <-> (lo <= i <= hi /\ jlo i <= j <= jhi)%Z.
Proof.
  unfold visited. rewrite existsb_exists. split.
  - intros (ij & Hin & E). apply pair_eqb_true in E. subst ij.
    unfold pairs in Hin. apply in_flat_map in Hin. destruct Hin as (i0 & Hi & Hj).
    apply in_map_iff in Hj. destruct Hj as (j0 & E & Hj). inversion E; subst.
    apply In_zrange in Hi, Hj. lia.
  - intros [Hi Hj]. exists (i, j). split; [|now apply pair_eqb_true].
    unfold pairs. apply in_flat_map. exists i. split; [now apply In_zrange|].
    apply in_map. now apply In_zrange.
Qed.

Lemma pairs_nil (lo hi : Z) (jlo : Z -> Z) (jhi : Z) :
  (hi < lo \/ forall i, lo <= i <= hi -> jhi < jlo i)%Z -> pairs lo hi jlo jhi = [].
Proof.
  intros [H|H]; unfold pairs.
  - now rewrite zrange_nil.
  - assert (Hz : forall i, In i (zrange lo hi) -> (lo <= i <= hi)%Z)
      by (intro i; apply In_zrange).
    induction (zrange lo hi) as [|i l IH]; simpl; [reflexivity|].
    rewrite (zrange_nil (jlo i) jhi) by (apply H, Hz; now left). simpl.
    apply IH. intros k Hk. apply Hz. now right.
Qed.

(** ** settings (C10) *)

Section Settings.

Variable lmp : LAMMPS.

(** The body of the reset loop, on an index pair. *)
Let reset (s : PairLJETEN) (ij : Z * Z) : PairLJETEN :=
  if truthy (setflag s (fst ij) (snd ij))
  then wr cut (fst ij) (snd ij) (cut_global s) s else s.

Lemma reset_rd (q : PairLJETEN) (ij : Z * Z) (a : array2) (i j : Z) :
  rd (reset q ij) a i j =
  if array2_beq a cut && pair_eqb (i, j) ij && truthy (setflag q i j)
  then cut_global q else rd q a i j.
Proof.
  unfold reset.
  destruct (pair_eqb (i, j) ij) eqn:E.
  - pose proof E as E'. apply pair_eqb_true in E'. subst ij. simpl.
    destruct (truthy (setflag q i j)).
    + unfold rd, wr; simpl. now rewrite !Z.eqb_refl, andb_true_r.
    + now rewrite andb_false_r.
  - rewrite andb_false_r. simpl.
    destruct (truthy (setflag q (fst ij) (snd ij))); [|reflexivity].
    unfold rd, wr; simpl. unfold pair_eqb in E; simpl in E.
    now rewrite <- andb_assoc, E, andb_false_r.
Qed.

Lemma reset_loop (l : list (Z * Z)) (q : PairLJETEN) :
  let q' := fold_left reset l q in
  setflag q' = setflag q /\ cut_global q' = cut_global q /\
  allocated q' = allocated q /\
  forall a i j,
    rd q' a i j =
    if array2_beq a cut && visited l i j && truthy (setflag q i j)
    then cut_global q else rd q a i j.
Proof.
  revert q. induction l as [|ij l IH]; intro q; simpl.
  - repeat split. intros a i j. now rewrite andb_false_r.
  - destruct (IH (reset q ij)) as (Hs & Hg & Ha & Hr).
    assert (Hs1 : setflag (reset q ij) = setflag q)
      by (unfold reset; destruct (truthy _); reflexivity).
    assert (Hg1 : cut_global (reset q ij) = cut_global q)
      by (unfold reset; destruct (truthy _); reflexivity).
    assert (Ha1 : allocated (reset q ij) = allocated q)
      by (unfold reset; destruct (truthy _); reflexivity).
    repeat split; try congruence.
    intros a i j. rewrite Hr, Hs1, Hg1, reset_rd.
    destruct (array2_beq a cut), (pair_eqb (i, j) ij), (visited l i j),
      (truthy (setflag q i j)); reflexivity.
Qed.

Lemma settings_allocated (v : R) (p : PairLJETEN) :
  allocated p = true ->
  settings lmp [v] p
  = Done (fold_left reset (pairs 1 (ntypes lmp) (fun i => i) (ntypes lmp))
                    (set_cut_global v p)).
Proof.
  intro H. unfold settings; simpl. rewrite H. f_equal.
  apply (for_pairs 1 (ntypes lmp) (fun i => i) (ntypes lmp)
           (fun i j s => if truthy (setflag s i j) then wr cut i j (cut_global s) s else s)).
Qed.

End Settings.

(** C10. On an allocated table, [settings] with the one value v stores v
    as the cutoff of every pair i <= j (1 <= i, j <= ntypes) whose setflag
    is nonzero, whatever cutoff the pair held (also one given to [coeff]
    as a fourth value), and leaves the cutoffs of the other pairs, the
    arrays other than [cut], and setflag as they were. *)
Theorem settings_resets_set_cutoffs (lmp : LAMMPS) (v : R) (p : PairLJETEN) :
  allocated p = true ->
  exists p',
    settings lmp [v] p = Done p' /\
    cut_global p' = v /\
    (forall i j, (1 <= i <= j)%Z -> (j <= ntypes lmp)%Z -> setflag p i j <> 0%Z ->
                 rd p' cut i j = v) /\
    (forall i j, setflag p i j = 0%Z -> rd p' cut i j = rd p cut i j) /\
    (forall a i j, a <> cut -> rd p' a i j = rd p a i j) /\
    setflag p' = setflag p.
Proof.
  intro H. eexists. split; [apply settings_allocated; exact H|].
  set (l := pairs 1 (ntypes lmp) (fun i => i) (ntypes lmp)).
  destruct (reset_loop l (set_cut_global v p)) as (Hs & Hg & _ & Hr).
  cbv zeta in *. repeat split.
  - exact Hg.
  - intros i j Hij Hj Hset. rewrite Hr. simpl.
    assert (Hv : visited l i j = true) by (apply visited_pairs; lia).
    rewrite Hv. unfold truthy. destruct (Z.eqb_spec (setflag p i j) 0); [contradiction|].
    reflexivity.
  - intros i j Hset. rewrite Hr. simpl. unfold truthy. rewrite Hset. simpl.
    now rewrite andb_false_r.
  - intros a i j Ha. rewrite Hr. now rewrite (array2_beq_neq a cut Ha).
  - exact Hs.
Qed.

(** C10 on the small system: the pair (1,1) was given the cutoff 7 by
    [coeff]; [settings] with 3 stores 3. *)
Lemma settings_resets_set_cutoffs_witness :
  allocated Example.overridden = true /\
  rd Example.overridden cut 1 1 = 7 /\
  exists p', settings Example.lmp [3] Example.overridden = Done p' /\
             rd p' cut 1 1 = 3.
Proof.
  assert (Ha : allocated Example.overridden = true) by (crunch; reflexivity).
  split; [exact Ha|]. split; [crunch; reflexivity|].
  destruct (settings_resets_set_cutoffs Example.lmp 3 Example.overridden Ha)
    as (p' & E & _ & Hset & _).
  exists p'. split; [exact E|].
  apply Hset; [lia | simpl; lia | crunch; discriminate].
Defined.

(** ** allocate *)

Section Allocate.

Variable lmp : LAMMPS.

Let clear (s : PairLJETEN) (ij : Z * Z) : PairLJETEN :=
  wr_setflag (fst ij) (snd ij) 0%Z s.

Lemma clear_loop (l : list (Z * Z)) (q : PairLJETEN) :
  let q' := fold_left clear l q in
  tab q' = tab q /\ allocated q' = allocated q /\ cut_global q' = cut_global q /\
  offset_flag q' = offset_flag q /\ mix_flag q' = mix_flag q /\
  tail_flag q' = tail_flag q /\ cut_respa q' = cut_respa q /\
  forall i j, setflag q' i j = if visited l i j then 0%Z else setflag q i j.
Proof.
  revert q. induction l as [|ij l IH]; intro q; simpl.
  - repeat split.
  - destruct (IH (clear q ij)) as (H1 & H2 & H3 & H4 & H5 & H6 & H7 & H8).
    repeat split; try assumption.
    intros i j. rewrite H8. unfold visited; simpl. fold (visited l i j).
    unfold clear, wr_setflag, pair_eqb; simpl.
    destruct ((i =? fst ij)%Z && (j =? snd ij)%Z), (visited l i j); reflexivity.
Qed.

(** What [allocate] returns: the fresh storage, with [setflag] cleared on
    the pairs i <= j. *)
Lemma allocate_spec (fresh : Fresh) (p : PairLJETEN) :
  let q := allocate lmp fresh p in
  allocated q = true /\ tab q = fresh_tab fresh /\
  cut_global q = cut_global p /\ offset_flag q = offset_flag p /\
  mix_flag q = mix_flag p /\ tail_flag q = tail_flag p /\
  cut_respa q = cut_respa p /\
  (forall i j, (1 <= i <= j)%Z -> (j <= ntypes lmp)%Z -> setflag q i j = 0%Z) /\
  (forall i j, ~ ((1 <= i <= j)%Z /\ (j <= ntypes lmp)%Z) ->
               setflag q i j = fresh_setflag fresh i j).
Proof.
  unfold allocate.
  rewrite (for_pairs 1 (ntypes lmp + 1 - 1) (fun i => i) (ntypes lmp + 1 - 1)
             (fun i j s => wr_setflag i j 0%Z s)).
  match goal with
  | |- context [fold_left _ ?l ?q0] =>
      destruct (clear_loop l q0) as (H1 & H2 & H3 & H4 & H5 & H6 & H7 & H8)
  end.
  cbv zeta in *. repeat split; try assumption.
  - intros i j Hij Hj. rewrite H8.
    replace (visited _ i j) with true; [reflexivity|].
    symmetry. apply visited_pairs. lia.
  - intros i j Hn. rewrite H8.
    destruct (visited _ i j) eqn:E; [|reflexivity].
    apply visited_pairs in E. exfalso. apply Hn. lia.
Qed.

End Allocate.

(** ** coeff with bad arguments (C8) *)

Lemma coeff_loop_empty (ilo ihi jlo jhi : Z) (A : Type)
    (body : Z -> Z -> A -> A) (s : A) :
  (ihi < ilo \/ jhi < jlo \/ jhi < ilo)%Z ->
  for_ ilo ihi (fun i s => for_ (Z.max jlo i) jhi (fun j s => body i j s) s) s = s.
Proof.
  intro H. rewrite (for_pairs ilo ihi (Z.max jlo) jhi body).
  rewrite pairs_nil; [reflexivity|].
  destruct H as [H|H]; [now left|right]. intros i Hi. lia.
Qed.

(** C8. [coeff] given fewer than 3 or more than 4 coefficient values, or
    bounds that leave no pair i <= j to set, ends the run with "Incorrect
    args for pair coefficients".  With a wrong count nothing was done; with
    an empty range on an allocated table nothing was done either; on a
    table not yet allocated only [allocate] ran, and every pair i <= j is
    unset.  In no case was an entry of aterm, bterm, cterm, cut or setflag
    assigned by the command. *)
Theorem coeff_rejects_bad_arguments
    (lmp : LAMMPS) (fresh : Fresh) (ilo ihi jlo jhi : Z) (vals : list R)
    (p : PairLJETEN) :
  (length vals < 3)%nat \/ (length vals > 4)%nat \/
  (ihi < ilo)%Z \/ (jhi < jlo)%Z \/ (jhi < ilo)%Z ->
  exists q,
    coeff lmp fresh ilo ihi jlo jhi vals p
    = Abort "Incorrect args for pair coefficients" q /\
    ((length vals < 3)%nat \/ (length vals > 4)%nat -> q = p) /\
    (allocated p = true -> q = p) /\
    (allocated p = false -> (3 <= length vals <= 4)%nat ->
     q = allocate lmp fresh p /\
     forall i j, (1 <= i <= j)%Z -> (j <= ntypes lmp)%Z -> setflag q i j = 0%Z).
Proof.
  intro H. unfold coeff.
  destruct ((2 + Z.of_nat (length vals) <? 5)%Z || (2 + Z.of_nat (length vals) >? 6)%Z)
    eqn:Ebad.
  - exists p. split; [reflexivity|]. split; [reflexivity|]. split; [reflexivity|].
    intros _ Hc. exfalso.
    apply orb_true_iff in Ebad. destruct Ebad as [E|E].
    + apply Z.ltb_lt in E. lia.
    + rewrite Z.gtb_ltb in E. apply Z.ltb_lt in E. lia.
  - apply orb_false_iff in Ebad. destruct Ebad as [E1 E2].
    apply Z.ltb_ge in E1. rewrite Z.gtb_ltb in E2. apply Z.ltb_ge in E2.
    assert (Hrange : (ihi < ilo \/ jhi < jlo \/ jhi < ilo)%Z)
      by (destruct H as [H|[H|H]]; [lia|lia|exact H]).
    set (q := if allocated p then p else allocate lmp fresh p).
    exists q.
    match goal with
    | |- context [for_ ilo ihi ?b ?s0] =>
        replace (for_ ilo ihi b s0) with s0
    end.
    + simpl. split; [reflexivity|]. split; [intro; lia|].
      split; [intro Ha; unfold q; now rewrite Ha|].
      intros Ha _. unfold q; rewrite Ha. split; [reflexivity|].
      apply (allocate_spec lmp fresh p).
    + symmetry.
      apply (coeff_loop_empty ilo ihi jlo jhi (PairLJETEN * Z)
               (fun i j '(p0, count) =>
                  (wr_setflag i j 1%Z
                     (wr cut i j
                        (if (2 + Z.of_nat (length vals) =? 6)%Z
                         then nth 3 vals 0 else cut_global q)
                        (wr cterm i j (nth 2 vals 0)
                           (wr bterm i j (nth 1 vals 0)
                              (wr aterm i j (nth 0 vals 0) p0)))),
                   (count + 1)%Z))).
      exact Hrange.
Qed.

(** C8 on the small system: two coefficient values. *)
Lemma coeff_rejects_bad_arguments_witness :
  (length [1000; 2000] < 3)%nat /\
  coeff Example.lmp Example.zeros 1 1 1 1 [1000; 2000] Example.overridden
  = Abort "Incorrect args for pair coefficients" Example.overridden.
Proof.
  assert (Hn : (length [1000; 2000] < 3)%nat) by (simpl; lia).
  split; [exact Hn|].
  destruct (coeff_rejects_bad_arguments Example.lmp Example.zeros 1 1 1 1
              [1000; 2000] Example.overridden (or_introl Hn)) as (q & E & Hq & _).
  rewrite E. f_equal. apply Hq. left. exact Hn.
Defined.

(** ** The rRESPA cutoff check of init_one (C9) *)

Lemma init_arrays_cut (lmp : LAMMPS) (i j : Z) (p : PairLJETEN) :
  rd (init_arrays lmp i j p) cut i j = pair_cutoff lmp i j p.
Proof.
  unfold init_arrays.
  rewrite mirror_input, derive_input, reassign_same by (unfold is_input; tauto).
  unfold fill_unset, pair_cutoff.
  destruct (setflag p i j =? 0)%Z; [|reflexivity].
  rewrite rd_wr_same. simpl. rdwr. reflexivity.
Qed.

Lemma init_arrays_cut_respa (lmp : LAMMPS) (i j : Z) (p : PairLJETEN) :
  cut_respa (init_arrays lmp i j p) = cut_respa p.
Proof.
  unfold init_arrays, fill_unset. destruct (setflag p i j =? 0)%Z; reflexivity.
Qed.

(** [init_style] points [cut_respa] at the radii of an rRESPA integrator
    that has an inner level, and clears it otherwise. *)
Lemma init_style_cut_respa (lmp : LAMMPS) (p : PairLJETEN) :
  cut_respa (snd (init_style lmp p)) =
  match respa lmp with
  | Some r => if (level_inner r >=? 0)%Z then Some (cutoff r) else None
  | None => None
  end.
Proof.
  unfold init_style; simpl. destruct (respa lmp) as [r|]; [|reflexivity].
  destruct (level_inner r >=? 0)%Z; reflexivity.
Qed.

(** C9. With the shell radii of an rRESPA integrator in place
    ([cut_respa] not null), [init_one(i,j)] ends the run with "Pair cutoff
    < Respa interior cutoff" exactly when the pair's cutoff is below
    [cut_respa[3]], and otherwise returns that cutoff; without them it
    always returns.  The force loops have no such check: with the radii in
    place they run to their end on any table. *)
Theorem init_one_respa_cutoff_check (lmp : LAMMPS) (i j : Z) (p : PairLJETEN) :
  (forall cr, cut_respa p = Some cr ->
     (pair_cutoff lmp i j p < cr 3%Z ->
      init_one lmp i j p
      = Abort "Pair cutoff < Respa interior cutoff" (init_arrays lmp i j p)) /\
     (cr 3%Z <= pair_cutoff lmp i j p ->
      exists p', init_one lmp i j p = Done (p', pair_cutoff lmp i j p)) /\
     (forall l w, exists w', compute_inner lmp p l w = Some w') /\
     (forall l w, exists w', compute_middle lmp p l w = Some w') /\
     (forall eflag vflag l w, exists w', compute_outer lmp p eflag vflag l w = Some w')) /\
  (cut_respa p = None ->
   exists p', init_one lmp i j p = Done (p', pair_cutoff lmp i j p)).
Proof.
  split.
  - intros cr Hcr. repeat split.
    + intro Hlt. unfold init_one.
      rewrite init_arrays_cut_respa, Hcr, init_arrays_cut.
      now rewrite Rltb_true.
    + intro Hge. unfold init_one.
      rewrite init_arrays_cut_respa, Hcr, init_arrays_cut.
      rewrite Rltb_false by exact Hge.
      destruct (truthy (tail_flag (init_arrays lmp i j p)));
        eexists; rewrite <- (init_arrays_cut lmp i j p); reflexivity.
    + intros l w. unfold compute_inner. rewrite Hcr. eexists; reflexivity.
    + intros l w. unfold compute_middle. rewrite Hcr. eexists; reflexivity.
    + intros eflag vflag l w. unfold compute_outer.
      destruct (ev_init lmp eflag vflag). rewrite Hcr. eexists; reflexivity.
  - intro Hn. unfold init_one. rewrite init_arrays_cut_respa, Hn.
    destruct (truthy (tail_flag (init_arrays lmp i j p)));
      eexists; rewrite <- (init_arrays_cut lmp i j p); reflexivity.
Qed.

(** C9 on the small system: cutoff 7 against shell radii up to 11. *)
Lemma init_one_respa_cutoff_check_witness :
  cut_respa Example.under_wide_respa = Some (Example.shells 8 9 10 11) /\
  pair_cutoff Example.lmp 1 1 Example.under_wide_respa < Example.shells 8 9 10 11 3%Z /\
  init_one Example.lmp 1 1 Example.under_wide_respa
  = Abort "Pair cutoff < Respa interior cutoff"
          (init_arrays Example.lmp 1 1 Example.under_wide_respa).
Proof.
  assert (Hc : cut_respa Example.under_wide_respa = Some (Example.shells 8 9 10 11))
    by reflexivity.
  assert (Hlt : pair_cutoff Example.lmp 1 1 Example.under_wide_respa
                < Example.shells 8 9 10 11 3%Z) by (crunch; lra).
  split; [exact Hc|]. split; [exact Hlt|].
  exact (proj1 (proj1 (init_one_respa_cutoff_check Example.lmp 1 1
                         Example.under_wide_respa) _ Hc) Hlt).
Defined.

(** ** The force that compute_outer tallies (C6) *)

Lemma raw_force_fforce (p : PairLJETEN) (it jt : Z) (rsq factor : R) (l : locals) :
  fpair (raw_force p it jt rsq factor l) = fforce p it jt rsq factor.
Proof. reflexivity. Qed.

(** C6, as amended. In [compute_outer] with [vflag] set, for a pair inside
    the cutoff: when rsq <= cut_in_off^2 no force is added and [fpair] is
    evaluated anew, unsmoothed; when cut_in_off^2 < rsq < cut_in_on^2 the
    smoothed [fpair] is added to the forces and [fpair] is then assigned
    the unsmoothed factor_lj * forcelj * r2inv again; otherwise nothing is
    recomputed and [fpair] is the unsmoothed value of the force branch.  In
    every case [ev_tally] receives the raw force magnitude. *)
Theorem outer_virial_uses_raw_force
    (p : PairLJETEN) (cr : Z -> R) (eflag vflag it jt : Z) (rsq factor : R)
    (l : locals) :
  truthy vflag = true ->
  rsq < rd p cutsq it jt ->
  let off_sq := cr 2%Z * cr 2%Z in
  let on_sq := cr 3%Z * cr 3%Z in
  let t := (sqrt rsq - cr 2%Z) / (cr 3%Z - cr 2%Z) in
  outer_tallied p cr eflag vflag it jt rsq factor l
  = Some (fforce p it jt rsq factor) /\
  (rsq <= off_sq ->
   exists l', outer_block p cr eflag vflag it jt rsq factor l = Some (None, l')) /\
  (off_sq < rsq < on_sq ->
   exists l', outer_block p cr eflag vflag it jt rsq factor l
              = Some (Some (fforce p it jt rsq factor * (t * t * (3 - 2 * t))), l')) /\
  (off_sq < rsq -> on_sq <= rsq ->
   exists l', outer_block p cr eflag vflag it jt rsq factor l
              = Some (Some (fforce p it jt rsq factor), l')).
Proof.
  intros Hv Hcut off_sq on_sq t.
  unfold outer_tallied, outer_block. fold off_sq on_sq.
  rewrite Rltb_true by exact Hcut. rewrite Hv.
  destruct (Rle_dec rsq off_sq) as [Hle|Hgt].
  - rewrite Rgtb_false, Rleb_true by exact Hle.
    destruct (truthy eflag); (split; [reflexivity|]);
      (split; [intros _; eexists; reflexivity|]);
      (split; intros; exfalso; lra).
  - assert (Hgt' : off_sq < rsq) by lra.
    rewrite Rgtb_true, Rleb_false by exact Hgt'.
    destruct (Rlt_dec rsq on_sq) as [Hlt|Hge].
    + rewrite !Rltb_true by exact Hlt.
      destruct (truthy eflag); (split; [reflexivity|]);
        (split; [intros; exfalso; lra|]);
        (split; [intros _; eexists; reflexivity|]);
        intros; exfalso; lra.
    + rewrite !Rltb_false by lra.
      destruct (truthy eflag); (split; [reflexivity|]);
        (split; [intros; exfalso; lra|]);
        (split; [intros; exfalso; lra|]);
        intros; eexists; reflexivity.
Qed.

(** C6 on the small system: rsq = 49/4 between the radii 3 and 4. *)
Lemma outer_virial_uses_raw_force_witness :
  truthy 1 = true /\
  49 / 4 < rd Example.respa_ready cutsq 1 1 /\
  outer_tallied Example.respa_ready (Example.shells 1 2 3 4) 0 1 1 1 (49 / 4) 1
                Example.any_locals
  = Some (fforce Example.respa_ready 1 1 (49 / 4) 1).
Proof.
  assert (Hv : truthy 1 = true) by reflexivity.
  assert (Hc : 49 / 4 < rd Example.respa_ready cutsq 1 1).
  { destruct respa_ready_finalized as (_ & _ & _ & _ & _ & _ & _ & ->). lra. }
  split; [exact Hv|]. split; [exact Hc|].
  exact (proj1 (outer_virial_uses_raw_force Example.respa_ready (Example.shells 1 2 3 4)
                  0 1 1 1 (49 / 4) 1 Example.any_locals Hv Hc)).
Defined.

(** C6, counterexample. Shell radii 3 and 4 for the outer level, a = 1000,
    b = 2000, c = 50, cutoff 7, rsq = 49/4 (r = 7/2, between the radii),
    [vflag] set: the force branch adds the smoothed [fpair] (half the raw
    magnitude), and the [fpair] left for [ev_tally] is the raw magnitude,
    not the smoothed one. *)
Lemma outer_virial_not_smoothed :
  match outer_block Example.respa_ready (Example.shells 1 2 3 4) 0 1 1 1 (49 / 4) 1
                    Example.any_locals with
  | Some (Some smoothed, l') =>
      smoothed = fforce Example.respa_ready 1 1 (49 / 4) 1 * (1 / 2) /\
      fpair l' = fforce Example.respa_ready 1 1 (49 / 4) 1 /\
      fpair l' <> smoothed
  | _ => False
  end.
Proof.
  destruct respa_ready_finalized as (H1 & H2 & H3 & _ & _ & _ & _ & H8).
  unfold outer_block, fforce, single, raw_force, energy.
  rewrite H1, H2, H3, H8.
  cbn [Example.shells Z.eqb Pos.eqb truthy negb].
  rewrite sqrt_49_4. repeat decide_cmp. simpl.
  repeat split; lra.
Qed.

(** ** The three shell modes together (C4) *)

(** Comparisons settled by the facts at hand. *)
Ltac settle :=
  repeat match goal with
  | |- context [Rltb ?a ?b] =>
      first [rewrite (Rltb_true a b) by lra | rewrite (Rltb_false a b) by lra]
  | |- context [Rgtb ?a ?b] =>
      first [rewrite (Rgtb_true a b) by lra | rewrite (Rgtb_false a b) by lra]
  | |- context [Rleb ?a ?b] =>
      first [rewrite (Rleb_true a b) by lra | rewrite (Rleb_false a b) by lra]
  end.

Section Shells.

Variable p : PairLJETEN.
Variable cr : Z -> R.
Variables eflag vflag it jt : Z.
Variable factor : R.
Variable l : locals.

Hypothesis radii_01 : 0 <= cr 0%Z < cr 1%Z.
Hypothesis radii_12 : cr 1%Z <= cr 2%Z.
Hypothesis radii_23 : cr 2%Z < cr 3%Z.
Hypothesis radii_cut : cr 3%Z * cr 3%Z <= rd p cutsq it jt.

Let s0 := cr 0%Z * cr 0%Z.
Let s1 := cr 1%Z * cr 1%Z.
Let s2 := cr 2%Z * cr 2%Z.
Let s3 := cr 3%Z * cr 3%Z.

Lemma squares_ordered : s0 < s1 /\ s1 <= s2 /\ s2 < s3 /\ s3 <= rd p cutsq it jt.
Proof. unfold s0, s1, s2, s3. repeat split; nra. Qed.

Lemma inner_cases (rsq : R) :
  inner_magnitude p cr it jt rsq factor l =
  if rsq <? s1 then
    if rsq >? s0
    then fforce p it jt rsq factor
         * (1 - (sqrt rsq - cr 0%Z) / (cr 1%Z - cr 0%Z)
                * ((sqrt rsq - cr 0%Z) / (cr 1%Z - cr 0%Z))
                * (3 - 2 * ((sqrt rsq - cr 0%Z) / (cr 1%Z - cr 0%Z))))
    else fforce p it jt rsq factor
  else 0.
Proof.
  unfold inner_magnitude, inner_block. fold s0 s1.
  destruct (rsq <? s1); [|reflexivity]. destruct (rsq >? s0); reflexivity.
Qed.

Lemma middle_cases (rsq : R) :
  middle_magnitude p cr it jt rsq factor l =
  if (rsq <? s3) && (rsq >? s0) then
    if rsq <? s1
    then fforce p it jt rsq factor
         * ((sqrt rsq - cr 0%Z) / (cr 1%Z - cr 0%Z)
            * ((sqrt rsq - cr 0%Z) / (cr 1%Z - cr 0%Z))
            * (3 - 2 * ((sqrt rsq - cr 0%Z) / (cr 1%Z - cr 0%Z))))
    else if rsq >? s2
    then fforce p it jt rsq factor
         * (1 + (sqrt rsq - cr 2%Z) / (cr 3%Z - cr 2%Z)
                * ((sqrt rsq - cr 2%Z) / (cr 3%Z - cr 2%Z))
                * (2 * ((sqrt rsq - cr 2%Z) / (cr 3%Z - cr 2%Z)) - 3))
    else fforce p it jt rsq factor
  else 0.
Proof.
  pose proof squares_ordered as (H01 & H12 & H23 & _).
  unfold middle_magnitude, middle_block. fold s0 s1 s2 s3.
  destruct ((rsq <? s3) && (rsq >? s0)); [|reflexivity].
  destruct (Rlt_dec rsq s1) as [H|H].
  - rewrite !(Rltb_true rsq s1) by exact H.
    rewrite (Rgtb_false rsq s2) by lra. reflexivity.
  - rewrite !(Rltb_false rsq s1) by lra.
    destruct (rsq >? s2); reflexivity.
Qed.

Lemma outer_cases (rsq : R) :
  outer_magnitude p cr eflag vflag it jt rsq factor l =
  if rsq <? rd p cutsq it jt then
    if rsq >? s2 then
      if rsq <? s3
      then fforce p it jt rsq factor
           * ((sqrt rsq - cr 2%Z) / (cr 3%Z - cr 2%Z)
              * ((sqrt rsq - cr 2%Z) / (cr 3%Z - cr 2%Z))
              * (3 - 2 * ((sqrt rsq - cr 2%Z) / (cr 3%Z - cr 2%Z))))
      else fforce p it jt rsq factor
    else 0
  else 0.
Proof.
  unfold outer_magnitude, outer_block. fold s2 s3.
  destruct (rsq <? rd p cutsq it jt); [|reflexivity].
  destruct (rsq >? s2); [|reflexivity].
  destruct (rsq <? s3); reflexivity.
Qed.

Lemma shells_sum (rsq : R) :
  rsq < rd p cutsq it jt ->
  inner_magnitude p cr it jt rsq factor l
  + middle_magnitude p cr it jt rsq factor l
  + outer_magnitude p cr eflag vflag it jt rsq factor l
  = fforce p it jt rsq factor.
Proof.
  intro Hc. pose proof squares_ordered as (H01 & H12 & H23 & H3c).
  rewrite inner_cases, middle_cases, outer_cases.
  destruct (Rle_dec rsq s0); [settle; simpl; ring|].
  destruct (Rlt_dec rsq s1); [settle; simpl; ring|].
  destruct (Rle_dec rsq s2); [settle; simpl; ring|].
  destruct (Rlt_dec rsq s3); settle; simpl; ring.
Qed.

Lemma shells_at_boundaries :
  (inner_magnitude p cr it jt s0 factor l = fforce p it jt s0 factor /\
   middle_magnitude p cr it jt s0 factor l = 0) /\
  (inner_magnitude p cr it jt s1 factor l = 0 /\
   middle_magnitude p cr it jt s1 factor l = fforce p it jt s1 factor) /\
  (middle_magnitude p cr it jt s2 factor l = fforce p it jt s2 factor /\
   outer_magnitude p cr eflag vflag it jt s2 factor l = 0) /\
  (middle_magnitude p cr it jt s3 factor l = 0 /\
   (s3 < rd p cutsq it jt ->
    outer_magnitude p cr eflag vflag it jt s3 factor l = fforce p it jt s3 factor)).
Proof.
  pose proof squares_ordered as (H01 & H12 & H23 & H3c).
  repeat split; intros;
    rewrite ?inner_cases, ?middle_cases, ?outer_cases;
    settle; reflexivity.
Qed.

End Shells.

(** C4, as amended. With shell radii 0 <= c0 < c1 <= c2 < c3 and
    c3^2 <= cutsq, the force magnitudes the Inner, Middle and Outer loops
    add for a pair do not agree at a shell boundary: they add up to the raw
    force magnitude [fforce], for every rsq below cutsq.  At rsq = c0^2
    Inner adds the whole of it and Middle none; at c1^2 Inner none and
    Middle the whole; at c2^2 Middle the whole and Outer none; at c3^2
    Middle none and Outer the whole. *)
Theorem shell_modes_partition_force
    (p : PairLJETEN) (cr : Z -> R) (eflag vflag it jt : Z) (factor : R) (l : locals) :
  0 <= cr 0%Z < cr 1%Z -> cr 1%Z <= cr 2%Z -> cr 2%Z < cr 3%Z ->
  cr 3%Z * cr 3%Z <= rd p cutsq it jt ->
  let I := fun rsq => inner_magnitude p cr it jt rsq factor l in
  let M := fun rsq => middle_magnitude p cr it jt rsq factor l in
  let O := fun rsq => outer_magnitude p cr eflag vflag it jt rsq factor l in
  let F := fun rsq => fforce p it jt rsq factor in
  let s0 := cr 0%Z * cr 0%Z in
  let s1 := cr 1%Z * cr 1%Z in
  let s2 := cr 2%Z * cr 2%Z in
  let s3 := cr 3%Z * cr 3%Z in
  (forall rsq, rsq < rd p cutsq it jt -> I rsq + M rsq + O rsq = F rsq) /\
  (I s0 = F s0 /\ M s0 = 0) /\
  (I s1 = 0 /\ M s1 = F s1) /\
  (M s2 = F s2 /\ O s2 = 0) /\
  (M s3 = 0 /\ (s3 < rd p cutsq it jt -> O s3 = F s3)).
Proof.
  intros H01 H12 H23 Hc I M O F s0 s1 s2 s3. split.
  - intros rsq Hr. now apply shells_sum.
  - now apply shells_at_boundaries.
Qed.

(** C4 on the small system: radii 1, 2, 3, 4, cutoff 7, rsq = 49/4. *)
Lemma shell_modes_partition_force_witness :
  0 <= Example.shells 1 2 3 4 0%Z < Example.shells 1 2 3 4 1%Z /\
  Example.shells 1 2 3 4 1%Z <= Example.shells 1 2 3 4 2%Z /\
  Example.shells 1 2 3 4 2%Z < Example.shells 1 2 3 4 3%Z /\
  Example.shells 1 2 3 4 3%Z * Example.shells 1 2 3 4 3%Z
  <= rd Example.respa_ready cutsq 1 1 /\
  inner_magnitude Example.respa_ready (Example.shells 1 2 3 4) 1 1 (49 / 4) 1
                  Example.any_locals
  + middle_magnitude Example.respa_ready (Example.shells 1 2 3 4) 1 1 (49 / 4) 1
                     Example.any_locals
  + outer_magnitude Example.respa_ready (Example.shells 1 2 3 4) 0 1 1 1 (49 / 4) 1
                    Example.any_locals
  = fforce Example.respa_ready 1 1 (49 / 4) 1.
Proof.
  assert (H8 : rd Example.respa_ready cutsq 1 1 = 7 * 7)
    by apply respa_ready_finalized.
  assert (H01 : 0 <= Example.shells 1 2 3 4 0%Z < Example.shells 1 2 3 4 1%Z)
    by (cbv [Example.shells Z.eqb Pos.eqb]; lra).
  assert (H12 : Example.shells 1 2 3 4 1%Z <= Example.shells 1 2 3 4 2%Z)
    by (cbv [Example.shells Z.eqb Pos.eqb]; lra).
  assert (H23 : Example.shells 1 2 3 4 2%Z < Example.shells 1 2 3 4 3%Z)
    by (cbv [Example.shells Z.eqb Pos.eqb]; lra).
  assert (Hc : Example.shells 1 2 3 4 3%Z * Example.shells 1 2 3 4 3%Z
               <= rd Example.respa_ready cutsq 1 1)
    by (rewrite H8; cbv [Example.shells Z.eqb Pos.eqb]; lra).
  repeat (split; [assumption|]).
  apply (proj1 (shell_modes_partition_force Example.respa_ready (Example.shells 1 2 3 4)
                  0 1 1 1 1 Example.any_locals H01 H12 H23 Hc)).
  rewrite H8. lra.
Defined.

(** C4, counterexample. Shell radii 1, 2, 3, 4, a = 1000, b = 2000,
    c = 50, cutoff 7, factor 1, and rsq = 1 = innerOff^2: the Inner loop
    adds the raw magnitude 12000 - 20000 + 300 = -7700, the Middle loop
    skips the pair. *)
Lemma shell_modes_disagree_at_boundary :
  inner_magnitude Example.respa_ready (Example.shells 1 2 3 4) 1 1 1 1
                  Example.any_locals = -7700 /\
  middle_magnitude Example.respa_ready (Example.shells 1 2 3 4) 1 1 1 1
                   Example.any_locals = 0 /\
  inner_magnitude Example.respa_ready (Example.shells 1 2 3 4) 1 1 1 1
                  Example.any_locals
  <> middle_magnitude Example.respa_ready (Example.shells 1 2 3 4) 1 1 1 1
                      Example.any_locals.
Proof.
  destruct respa_ready_finalized as (H1 & H2 & H3 & _).
  assert (Hi : inner_magnitude Example.respa_ready (Example.shells 1 2 3 4) 1 1 1 1
                 Example.any_locals = -7700).
  { unfold inner_magnitude, inner_block, raw_force. rewrite H1, H2, H3.
    cbn [Example.shells Z.eqb Pos.eqb]. repeat decide_cmp. simpl. lra. }
  assert (Hm : middle_magnitude Example.respa_ready (Example.shells 1 2 3 4) 1 1 1 1
                 Example.any_locals = 0).
  { unfold middle_magnitude, middle_block.
    cbn [Example.shells Z.eqb Pos.eqb]. repeat decide_cmp. reflexivity. }
  split; [exact Hi|]. split; [exact Hm|]. rewrite Hi, Hm. lra.
Qed.

(** ** Restart files: writing then reading (C5) *)

Lemma fold_o_app {E S A : Type} (body : A -> S -> outcome E S) (l1 l2 : list A) (s : S) :
  fold_o body (l1 ++ l2) s = (s' <- fold_o body l1 s ;; fold_o body l2 s').
Proof.
  revert s. induction l1 as [|a l1 IH]; intro s; simpl; [reflexivity|].
  destruct (body a s); simpl; [apply IH|reflexivity].
Qed.

Lemma for_o_pairs {E S : Type} (lo hi : Z) (jlo : Z -> Z) (jhi : Z)
    (body : Z -> Z -> S -> outcome E S) (s : S) :
  for_o lo hi (fun i s => for_o (jlo i) jhi (fun j s => body i j s) s) s
  = fold_o (fun ij s => body (fst ij) (snd ij) s) (pairs lo hi jlo jhi) s.
Proof.
  unfold for_o, pairs. revert s.
  induction (zrange lo hi) as [|i l IH]; intro s; simpl; [reflexivity|].
  rewrite fold_o_app.
  assert (E1 : forall js s0,
             fold_o (fun j s1 => body i j s1) js s0
             = fold_o (fun ij s1 => body (fst ij) (snd ij) s1)
                      (map (fun j => (i, j)) js) s0).
  { induction js as [|j js IHj]; intro s0; simpl; [reflexivity|].
    destruct (body i j s0); simpl; [apply IHj|reflexivity]. }
  rewrite <- E1. destruct (fold_o _ (zrange (jlo i) jhi) s); simpl; [apply IH|reflexivity].
Qed.

Section Restart_round_trip.

Variable lmp : LAMMPS.
Variable p : PairLJETEN.

(** Writing appends the header and one record per pair. *)
Lemma write_restart_cells (fp : FILE) :
  write_restart lmp p fp
  = fp ++ header p
       ++ flat_map (record p) (pairs 1 (ntypes lmp) (fun i => i) (ntypes lmp)).
Proof.
  unfold write_restart.
  rewrite (for_pairs 1 (ntypes lmp) (fun i => i) (ntypes lmp)
             (fun i j fp =>
                let fp := fwrite_int (setflag p i j) fp in
                if truthy (setflag p i j) then
                  let fp := fwrite_double (rd p aterm i j) fp in
                  let fp := fwrite_double (rd p bterm i j) fp in
                  let fp := fwrite_double (rd p cterm i j) fp in
                  fwrite_double (rd p cut i j) fp
                else fp)).
  assert (E : write_restart_settings p fp = fp ++ header p).
  { unfold write_restart_settings, fwrite_double, fwrite_int, header.
    now rewrite <- !app_assoc. }
  rewrite E, app_assoc. generalize (fp ++ header p).
  induction (pairs 1 (ntypes lmp) (fun i => i) (ntypes lmp)) as [|ij l IH];
    intro f0; simpl.
  - now rewrite app_nil_r.
  - rewrite IH. unfold record, fwrite_int, fwrite_double.
    destruct (truthy (setflag p (fst ij) (snd ij))); simpl;
      rewrite <- !app_assoc; reflexivity.
Qed.

(** One turn of the reading loop on the record of the pair. *)
Let read_one (ij : Z * Z) (s : PairLJETEN * FILE)
  : outcome PairLJETEN (PairLJETEN * FILE) :=
  (fun '(q, fp) =>
     '(n, fp) <- sfread_int q fp ;;
     let q := wr_setflag (fst ij) (snd ij) n q in
     if truthy (setflag q (fst ij) (snd ij)) then
       '(v, fp) <- sfread_double q fp ;;
       let q := wr aterm (fst ij) (snd ij) v q in
       '(v, fp) <- sfread_double q fp ;;
       let q := wr bterm (fst ij) (snd ij) v q in
       '(v, fp) <- sfread_double q fp ;;
       let q := wr cterm (fst ij) (snd ij) v q in
       '(v, fp) <- sfread_double q fp ;;
       let q := wr cut (fst ij) (snd ij) v q in
       Done (q, fp)
     else Done (q, fp)) s.

Lemma read_one_record (ij : Z * Z) (q : PairLJETEN) (rest : FILE) :
  read_one ij (q, record p ij ++ rest) = Done (restore p q ij, rest).
Proof.
  unfold read_one, record, restore; simpl.
  rewrite !Z.eqb_refl; simpl.
  destruct (truthy (setflag p (fst ij) (snd ij))); reflexivity.
Qed.

Lemma read_records (l : list (Z * Z)) (q : PairLJETEN) (rest : FILE) :
  fold_o read_one l (q, flat_map (record p) l ++ rest)
  = Done (fold_left (restore p) l q, rest).
Proof.
  revert q. induction l as [|ij l IH]; intro q; [reflexivity|].
  cbn [fold_o flat_map fold_left]. rewrite <- app_assoc, read_one_record.
  simpl. apply IH.
Qed.

Lemma restore_rd (q : PairLJETEN) (ij : Z * Z) (a : array2) (i j : Z) :
  rd (restore p q ij) a i j =
  if is_coeffb a && pair_eqb (i, j) ij && truthy (setflag p i j)
  then rd p a i j else rd q a i j.
Proof.
  unfold restore.
  destruct (pair_eqb (i, j) ij) eqn:E.
  - pose proof E as E'. apply pair_eqb_true in E'. subst ij. cbn [fst snd].
    destruct (truthy (setflag p i j)); [|now rewrite andb_false_r].
    rewrite !andb_true_r. destruct a; cbn [is_coeffb]; rdwr; reflexivity.
  - rewrite andb_false_r. cbn [andb].
    destruct (truthy (setflag p (fst ij) (snd ij))); [|reflexivity].
    assert (Hne : (i, j) <> (fst ij, snd ij)).
    { intro E'. destruct ij as [i0 j0]; simpl in E'. inversion E'; subst.
      unfold pair_eqb in E; simpl in E. now rewrite !Z.eqb_refl in E. }
    now rewrite !rd_wr_index by exact Hne.
Qed.

Lemma restore_setflag (q : PairLJETEN) (ij : Z * Z) (i j : Z) :
  setflag (restore p q ij) i j =
  if pair_eqb (i, j) ij then setflag p i j else setflag q i j.
Proof.
  unfold restore.
  assert (E : setflag (wr_setflag (fst ij) (snd ij) (setflag p (fst ij) (snd ij)) q) i j
              = if pair_eqb (i, j) ij then setflag p i j else setflag q i j).
  { unfold wr_setflag; simpl. unfold pair_eqb; simpl.
    destruct ((i =? fst ij)%Z && (j =? snd ij)%Z) eqn:E; [|reflexivity].
    apply andb_true_iff in E. destruct E as [E1 E2].
    apply Z.eqb_eq in E1, E2. now subst. }
  destruct (truthy (setflag p (fst ij) (snd ij))); exact E.
Qed.

Lemma restore_loop (l : list (Z * Z)) (q : PairLJETEN) :
  let q' := fold_left (restore p) l q in
  cut_global q' = cut_global q /\ offset_flag q' = offset_flag q /\
  mix_flag q' = mix_flag q /\ tail_flag q' = tail_flag q /\
  (forall i j, setflag q' i j = if visited l i j then setflag p i j else setflag q i j) /\
  (forall a i j,
     rd q' a i j =
     if is_coeffb a && visited l i j && truthy (setflag p i j)
     then rd p a i j else rd q a i j).
Proof.
  revert q. induction l as [|ij l IH]; intro q; simpl.
  - repeat split. intros a i j. now rewrite andb_false_r.
  - destruct (IH (restore p q ij)) as (H1 & H2 & H3 & H4 & H5 & H6).
    assert (F : cut_global (restore p q ij) = cut_global q /\
                offset_flag (restore p q ij) = offset_flag q /\
                mix_flag (restore p q ij) = mix_flag q /\
                tail_flag (restore p q ij) = tail_flag q)
      by (unfold restore; destruct (truthy _); repeat split).
    destruct F as (F1 & F2 & F3 & F4).
    repeat split; try congruence.
    + intros i j. rewrite H5, restore_setflag. unfold visited; simpl.
      fold (visited l i j).
      destruct (pair_eqb (i, j) ij), (visited l i j); reflexivity.
    + intros a i j. rewrite H6, restore_rd. unfold visited; simpl.
      fold (visited l i j).
      destruct (is_coeffb a), (pair_eqb (i, j) ij), (visited l i j),
        (truthy (setflag p i j)); reflexivity.
Qed.

(** Reading back what [write_restart] wrote into an empty stream: the
    header, [allocate], then one [restore] per pair, and the stream is at
    its end. *)
Lemma read_restart_written (fresh : Fresh) (p0 : PairLJETEN) :
  exists q0,
    (cut_global q0 = cut_global p /\ offset_flag q0 = offset_flag p /\
     mix_flag q0 = mix_flag p /\ tail_flag q0 = tail_flag p) /\
    read_restart lmp fresh p0 (write_restart lmp p [])
    = Done (fold_left (restore p) (pairs 1 (ntypes lmp) (fun i => i) (ntypes lmp))
                      (allocate lmp fresh q0), []).
Proof.
  rewrite write_restart_cells. cbn [app].
  unfold read_restart, header. cbn [app read_restart_settings sfread_double
    sfread_int bind].
  eexists. split; [|].
  2:{ rewrite (for_o_pairs 1 (ntypes lmp) (fun i => i) (ntypes lmp)
                 (fun i j s => read_one (i, j) s)).
      rewrite <- (app_nil_r (flat_map _ _)).
      apply (read_records (pairs 1 (ntypes lmp) (fun i => i) (ntypes lmp))). }
  repeat split.
Qed.

End Restart_round_trip.

Lemma init_arrays_coeffs (lmp : LAMMPS) (i j : Z) (q : PairLJETEN) (a : array2) :
  a = aterm \/ a = bterm \/ a = cterm ->
  rd (init_arrays lmp i j q) a i j
  = if (setflag q i j =? 0)%Z then 0 else rd q a i j.
Proof.
  intro Ha. unfold init_arrays.
  rewrite mirror_input, derive_input, reassign_same by (unfold is_input; tauto).
  unfold fill_unset. destruct (setflag q i j =? 0)%Z; [|reflexivity].
  destruct Ha as [->|[->| ->]]; rdwr; reflexivity.
Qed.

(** Two tables that agree on the flag of a pair and, if it is set, on its
    three coefficients, get the same derived constants from [init_one]. *)
Lemma init_arrays_agree (lmp : LAMMPS) (i j : Z) (q q' : PairLJETEN) :
  setflag q' i j = setflag q i j ->
  (setflag q i j <> 0%Z ->
   forall a, a = aterm \/ a = bterm \/ a = cterm -> rd q' a i j = rd q a i j) ->
  (forall a, a = aterm \/ a = bterm \/ a = cterm ->
     rd (init_arrays lmp i j q') a i j = rd (init_arrays lmp i j q) a i j) /\
  (forall a, is_derived a ->
     rd (init_arrays lmp i j q') a i j = rd (init_arrays lmp i j q) a i j /\
     rd (init_arrays lmp i j q') a j i = rd (init_arrays lmp i j q) a j i).
Proof.
  intros Hs Hc.
  assert (Hin : forall a, a = aterm \/ a = bterm \/ a = cterm ->
            rd (init_arrays lmp i j q') a i j = rd (init_arrays lmp i j q) a i j).
  { intros a Ha. rewrite !init_arrays_coeffs by exact Ha. rewrite Hs.
    destruct (Z.eqb_spec (setflag q i j) 0); [reflexivity|]. now apply Hc. }
  split; [exact Hin|].
  intros a Ha.
  assert (Hij : rd (init_arrays lmp i j q') a i j = rd (init_arrays lmp i j q) a i j).
  { destruct (init_arrays_derived lmp i j q) as (D1 & D2 & D3 & D4 & D5 & D6 & D7).
    destruct (init_arrays_derived lmp i j q') as (E1 & E2 & E3 & E4 & E5 & E6 & E7).
    unfold is_derived in Ha.
    destruct Ha as [->|[->|[->|[->|[->|[->| ->]]]]]];
      rewrite ?D1, ?D2, ?D3, ?D4, ?D5, ?D6, ?D7, ?E1, ?E2, ?E3, ?E4, ?E5, ?E6, ?E7;
      rewrite ?Hin by tauto; reflexivity. }
  split; [exact Hij|].
  now rewrite !init_arrays_mirrored.
Qed.

(** C5, as amended. Reading back into fresh storage what [write_restart]
    wrote succeeds and uses up the stream; the global settings are those
    written; for every pair i <= j the flag is the one written, and, if it
    is set, so are aterm, bterm, cterm and cut.  For an unset pair only the
    flag is stored: the four values are whatever the fresh storage held.
    After [init_one] on both tables the coefficients and the derived
    constants of the pair (both orientations) are equal, and so is its
    cutoff when the pair is set or both (i,i) and (j,j) are. *)
Theorem restart_round_trip
    (lmp : LAMMPS) (p : PairLJETEN) (fresh : Fresh) (p0 : PairLJETEN) :
  exists p',
    read_restart lmp fresh p0 (write_restart lmp p []) = Done (p', []) /\
    cut_global p' = cut_global p /\ offset_flag p' = offset_flag p /\
    mix_flag p' = mix_flag p /\ tail_flag p' = tail_flag p /\
    forall i j, (1 <= i <= j)%Z -> (j <= ntypes lmp)%Z ->
      setflag p' i j = setflag p i j /\
      (setflag p i j <> 0%Z -> forall a, is_coeff a -> rd p' a i j = rd p a i j) /\
      (setflag p i j = 0%Z -> forall a, rd p' a i j = fresh_tab fresh a i j) /\
      (forall a, a = aterm \/ a = bterm \/ a = cterm ->
         rd (init_arrays lmp i j p') a i j = rd (init_arrays lmp i j p) a i j) /\
      (forall a, is_derived a ->
         rd (init_arrays lmp i j p') a i j = rd (init_arrays lmp i j p) a i j /\
         rd (init_arrays lmp i j p') a j i = rd (init_arrays lmp i j p) a j i) /\
      (setflag p i j <> 0%Z \/ (setflag p i i <> 0%Z /\ setflag p j j <> 0%Z) ->
       pair_cutoff lmp i j p' = pair_cutoff lmp i j p).
Proof.
  destruct (read_restart_written lmp p fresh p0) as (q0 & (G1 & G2 & G3 & G4) & E).
  set (l := pairs 1 (ntypes lmp) (fun i => i) (ntypes lmp)) in *.
  exists (fold_left (restore p) l (allocate lmp fresh q0)).
  destruct (restore_loop p l (allocate lmp fresh q0)) as (R1 & R2 & R3 & R4 & Rs & Rr).
  destruct (allocate_spec lmp fresh q0) as (_ & At & A1 & A2 & A3 & A4 & _ & _ & _).
  cbv zeta in *.
  split; [exact E|].
  split; [congruence|]. split; [congruence|]. split; [congruence|].
  split; [congruence|].
  assert (Hv : forall i j, (1 <= i <= j)%Z -> (j <= ntypes lmp)%Z -> visited l i j = true)
    by (intros; apply visited_pairs; lia).
  assert (Hset : forall i j, (1 <= i <= j)%Z -> (j <= ntypes lmp)%Z ->
            forall a, setflag p i j <> 0%Z -> is_coeff a ->
            rd (fold_left (restore p) l (allocate lmp fresh q0)) a i j = rd p a i j).
  { intros i j Hij Hj a Hs Ha. rewrite Rr, (Hv i j Hij Hj).
    unfold truthy. destruct (Z.eqb_spec (setflag p i j) 0); [contradiction|].
    unfold is_coeff in Ha. destruct Ha as [->|[->|[->| ->]]]; reflexivity. }
  intros i j Hij Hj.
  assert (Hf : setflag (fold_left (restore p) l (allocate lmp fresh q0)) i j
               = setflag p i j) by (rewrite Rs, (Hv i j Hij Hj); reflexivity).
  assert (Hagree := init_arrays_agree lmp i j p
                      (fold_left (restore p) l (allocate lmp fresh q0)) Hf).
  destruct Hagree as [Hin Hder].
  { intros Hs a Ha. apply Hset; try assumption. unfold is_coeff; tauto. }
  split; [exact Hf|].
  split; [intros Hs a Ha; now apply Hset|].
  split.
  { intros Hs a. rewrite Rr. unfold truthy. rewrite Hs. simpl.
    rewrite andb_false_r. unfold rd. now rewrite At. }
  split; [exact Hin|]. split; [exact Hder|].
  intros Hs. unfold pair_cutoff. rewrite Hf, R3, A3, G3.
  destruct (Z.eqb_spec (setflag p i j) 0) as [Hz|Hnz].
  - destruct Hs as [Hs|[Hi Hjj]]; [contradiction|].
    rewrite (Hset i i), (Hset j j); try assumption; try lia;
      try (unfold is_coeff; tauto); reflexivity.
  - apply Hset; try assumption. unfold is_coeff; tauto.
Qed.

(** C5, counterexample. Types 1 and 2 are set with cutoff 10, the pair
    (1,2) is not; after [init_one] its cutoff is the mixed 10.  The restart
    stream holds only the flag 0 for (1,2): read back into zero-filled
    storage, the flag is 0 again and the cutoff is 0, not 10. *)
Lemma restart_drops_unset_values :
  match read_restart Example.lmp Example.zeros Example.new_pair
          (write_restart Example.lmp Example.two_types []) with
  | Done (p', _) =>
      setflag Example.two_types 1 2 = 0%Z /\
      setflag p' 1 2 = 0%Z /\
      rd Example.two_types cut 1 2 = 10 /\
      rd p' cut 1 2 = 0 /\
      rd p' cut 1 2 <> rd Example.two_types cut 1 2
  | Abort _ _ => False
  end.
Proof. run. repeat split; try reflexivity; lra. Qed.

(** ** born_matrix against the derivatives of the pair energy (C7) *)

Lemma inv_pow_derivative (n : nat) (r : R) :
  r <> 0 ->
  derivable_pt_lim (fun x => / x ^ S n) r (- INR (S n) / r ^ S (S n)).
Proof.
  intro Hr.
  assert (Hn : r ^ n <> 0) by now apply pow_nonzero.
  apply derivable_pt_lim_ext with (f := (fct_cte 1 / (fun x => x ^ S n))%F).
  - intro z. unfold div_fct, fct_cte, Rdiv. ring.
  - replace (- INR (S n) / r ^ S (S n))
      with ((0 * r ^ S n - INR (S n) * r ^ pred (S n) * fct_cte 1 r) / Rsqr (r ^ S n)).
    + apply derivable_pt_lim_div.
      * apply derivable_pt_lim_const.
      * apply derivable_pt_lim_pow.
      * now apply pow_nonzero.
    + unfold Rsqr, fct_cte. cbn [pred pow]. field. split; assumption.
Qed.

(** [spec_pair_energy_d1] and [spec_pair_energy_d2] are the derivatives
    their names say. *)
Lemma spec_pair_energy_derivative (a b c r : R) :
  r <> 0 ->
  derivable_pt_lim (spec_pair_energy a b c) r (spec_pair_energy_d1 a b c r).
Proof.
  intro Hr.
  pose proof (inv_pow_derivative 11 r Hr) as H12.
  pose proof (inv_pow_derivative 9 r Hr) as H10.
  pose proof (inv_pow_derivative 5 r Hr) as H6.
  apply (derivable_pt_lim_scal _ a) in H12.
  apply (derivable_pt_lim_scal _ b) in H10.
  apply (derivable_pt_lim_scal _ c) in H6.
  pose proof (derivable_pt_lim_plus _ _ _ _ _
                (derivable_pt_lim_minus _ _ _ _ _ H12 H10) H6) as H.
  apply derivable_pt_lim_ext with (g := spec_pair_energy a b c) in H.
  - replace (spec_pair_energy_d1 a b c r)
      with (a * (- INR 12 / r ^ 13) - b * (- INR 10 / r ^ 11)
            + c * (- INR 6 / r ^ 7)); [exact H|].
    unfold spec_pair_energy_d1. rewrite !INR_IZR_INZ.
    cbn [Z.of_nat Pos.of_succ_nat Pos.succ]. field. exact Hr.
  - intro z. reflexivity.
Qed.

Lemma spec_pair_energy_second_derivative (a b c r : R) :
  r <> 0 ->
  derivable_pt_lim (spec_pair_energy_d1 a b c) r (spec_pair_energy_d2 a b c r).
Proof.
  intro Hr.
  pose proof (inv_pow_derivative 12 r Hr) as H13.
  pose proof (inv_pow_derivative 10 r Hr) as H11.
  pose proof (inv_pow_derivative 6 r Hr) as H7.
  apply (derivable_pt_lim_scal _ (- 12 * a)) in H13.
  apply (derivable_pt_lim_scal _ (10 * b)) in H11.
  apply (derivable_pt_lim_scal _ (6 * c)) in H7.
  pose proof (derivable_pt_lim_minus _ _ _ _ _
                (derivable_pt_lim_plus _ _ _ _ _ H13 H11) H7) as H.
  apply derivable_pt_lim_ext with (g := spec_pair_energy_d1 a b c) in H.
  - replace (spec_pair_energy_d2 a b c r)
      with (- 12 * a * (- INR 13 / r ^ 14) + 10 * b * (- INR 11 / r ^ 12)
            - 6 * c * (- INR 7 / r ^ 8)); [exact H|].
    unfold spec_pair_energy_d2. rewrite !INR_IZR_INZ.
    cbn [Z.of_nat Pos.of_succ_nat Pos.succ]. field. exact Hr.
  - intro z. unfold spec_pair_energy_d1, plus_fct, minus_fct, mult_real_fct, Rdiv. ring.
Qed.

Lemma sqrt_inv_square (r : R) : 0 < r -> sqrt (1 / (r * r)) = / r.
Proof.
  intro Hr. apply sqrt_lem_1.
  - apply Rlt_le. apply Rdiv_lt_0_compat; nra.
  - apply Rlt_le. now apply Rinv_0_lt_compat.
  - field. lra.
Qed.

(** [single] is the pair energy of the specification and the force that
    belongs to it: the energy is factor * U(r), and fforce * r is
    - factor * dU/dr. *)
Lemma single_is_spec_pair_energy
    (p : PairLJETEN) (it jt : Z) (a b c rc r factor : R) :
  finalized p it jt a b c rc -> 0 < r ->
  fst (single p it jt (r * r) factor) = factor * spec_pair_energy a b c r /\
  snd (single p it jt (r * r) factor) * r = - (factor * spec_pair_energy_d1 a b c r).
Proof.
  intros (H1 & H2 & H3 & H4 & H5 & H6 & H7 & _) Hr.
  unfold single, spec_pair_energy, spec_pair_energy_d1; simpl.
  rewrite H1, H2, H3, H4, H5, H6, H7. split; field; lra.
Qed.

(** What [born_matrix] computes for a finalized pair at distance r. *)
Lemma born_matrix_formula
    (p : PairLJETEN) (it jt : Z) (a b c rc r factor : R) :
  finalized p it jt a b c rc -> 0 < r ->
  born_matrix p it jt (r * r) factor
  = (factor * (10 * b / r ^ 7 - 12 * a / r ^ 13),
     factor * (156 * a / r ^ 14 - 70 * b / r ^ 8)).
Proof.
  intros (H1 & H2 & _) Hr. unfold born_matrix.
  rewrite sqrt_inv_square, H1, H2 by exact Hr. f_equal; field; lra.
Qed.

(** C7, the code at a failing input. For a = 1000, b = 2000, c = 50,
    cutoff 10, at rsq = 1 with factor 1, [born_matrix] returns
    dupair = 8000 and du2pair = 16000, while dU/dr = 7700 and
    d2U/dr2 = -61900 at r = 1 for U(r) = a r^-12 - b r^-10 + c r^-6.  With
    the [fforce] of [single] at the same input, - fforce * r is 7700: the
    relation dupair = - fforce * r that the comment in [born_matrix]
    states does not hold. *)
Theorem born_matrix_not_derivative :
  born_matrix Example.ready 1 1 1 1 = (8000, 16000) /\
  derivable_pt_lim (spec_pair_energy 1000 2000 50) 1 7700 /\
  derivable_pt_lim (spec_pair_energy_d1 1000 2000 50) 1 (-61900) /\
  - (snd (single Example.ready 1 1 1 1) * 1) = 7700.
Proof.
  pose proof ready_finalized as Hf.
  assert (H1 : 0 < 1) by lra.
  repeat split.
  - pose proof (born_matrix_formula Example.ready 1 1 1000 2000 50 10 1 1 Hf H1) as E.
    replace (1 * 1) with 1 in E by ring. rewrite E. f_equal; lra.
  - replace 7700 with (spec_pair_energy_d1 1000 2000 50 1)
      by (unfold spec_pair_energy_d1; lra).
    apply spec_pair_energy_derivative. lra.
  - replace (-61900) with (spec_pair_energy_d2 1000 2000 50 1)
      by (unfold spec_pair_energy_d2; lra).
    apply spec_pair_energy_second_derivative. lra.
  - pose proof (proj2 (single_is_spec_pair_energy Example.ready 1 1 1000 2000 50 10
                         1 1 Hf H1)) as E.
    replace (1 * 1) with 1 in E by ring. rewrite E.
    unfold spec_pair_energy_d1. lra.
Qed.
